(** * Session and conversation-state manager of the chat client

    A shallow embedding of [components/ChatUI.jsx]: the session helpers that
    keep the directory of sessions and the current session id in
    [localStorage], and the [ChatUI] component, whose React state, event
    handlers and asynchronous continuations are modelled as a transition
    system over an explicit world state.

    Modelling conventions:
    - a JavaScript string is a [string]; one [ascii] stands for one code unit
      (the Latin-1 range), so [slice] and [trim] count code units;
    - [Date.now()] and [uuidv4()] are external: the value they return is an
      argument of the function that calls them ([now], [uuid]);
    - [JSON.stringify] followed by [JSON.parse] is the identity on arrays of
      session records, the only values the program writes under the key
      [chat_sessions];
    - a React state setter takes effect when the handler returns; a handler
      reads the state of the render it was created in, which is the current
      state when the event is dispatched;
    - [await fetch(...)] splits an async function in two: the part before
      the call records the request as in flight, the part after it runs when
      the event that settles the request is dispatched. *)

From Stdlib Require Import Ascii String ZArith.
From stdpp Require Import base list strings.

Open Scope string_scope.
Open Scope list_scope.

(** ** JavaScript strings *)

(** White space removed by [String.prototype.trim], within the Latin-1
    range: TAB, LF, VT, FF, CR, SPACE and NBSP. *)
Definition is_white_space (c : ascii) : bool :=
  match nat_of_ascii c with
  | 9 | 10 | 11 | 12 | 13 | 32 | 160 => true
  | _ => false
  end.

Fixpoint trimStart (s : string) : string :=
  match s with
  | EmptyString => EmptyString
  | String c s' => if is_white_space c then trimStart s' else s
  end.

Fixpoint trimEnd (s : string) : string :=
  match s with
  | EmptyString => EmptyString
  | String c s' =>
      match trimEnd s' with
      | EmptyString => if is_white_space c then EmptyString else String c EmptyString
      | t => String c t
      end
  end.

(** [s.trim()] *)
Definition trim (s : string) : string := trimEnd (trimStart s).

(** [s.slice(0, n)]: the first [n] code units of [s], all of [s] when it is
    shorter. *)
Fixpoint slice0 (n : nat) (s : string) : string :=
  match n, s with
  | S n', String c s' => String c (slice0 n' s')
  | _, _ => EmptyString
  end.

(** [a || b] on strings: the empty string is falsy. *)
Definition or_else (a b : string) : string :=
  if bool_decide (a = "") then b else a.

(** ** Data *)

Inductive Role := user | model.

(** A chat message as the component holds it: [{ role, text }]. *)
Record Message := { role : Role; text : string }.

(** An entry of the session directory: [{ id, preview, timestamp }]. *)
Record Session := { id : string; preview : string; timestamp : Z }.

Global Instance Role_eq_dec : EqDecision Role.
Proof. solve_decision. Defined.
Global Instance Message_eq_dec : EqDecision Message.
Proof. solve_decision. Defined.
Global Instance Session_eq_dec : EqDecision Session.
Proof. solve_decision. Defined.

(** ** localStorage *)

(** What [localStorage.getItem("chat_sessions")] holds: nothing (or the
    empty string), a string that [JSON.parse] rejects, or the serialised
    array of sessions. *)
Inductive SessionsItem :=
| NoItem
| NotJSON
| SessionsArray (l : list Session).

(** The browser side of the program: whether [window] is defined, and the
    two keys of [localStorage] the program uses. *)
Record Browser := {
  window : bool;
  chat_sessions : SessionsItem;
  chat_session_id : option string
}.

Definition setItem_chat_sessions (l : list Session) (b : Browser) : Browser :=
  {| window := window b;
     chat_sessions := SessionsArray l;
     chat_session_id := chat_session_id b |}.

Definition setItem_chat_session_id (v : string) (b : Browser) : Browser :=
  {| window := window b;
     chat_sessions := chat_sessions b;
     chat_session_id := Some v |}.

(** ** Session management helpers *)

Definition getAllSessions (b : Browser) : list Session :=
  if window b then
    match chat_sessions b with
    | NoItem => []
    | NotJSON => []
    | SessionsArray l => l
    end
  else [].

(** [sessions.find((s) => s.id === sessionId)], with the index of the entry
    found: the entry is an alias into the array, so assigning to its fields
    updates the array at that index. *)
Definition find_session (sid : string) (sessions : list Session) : option (nat * Session) :=
  list_find (λ s, id s = sid) sessions.

(** [saveSession(sessionId, preview = "")]; [now] is [Date.now()]. *)
Definition saveSession (sid pv : string) (now : Z) (b : Browser) : Browser :=
  if window b then
    let sessions := getAllSessions b in
    match find_session sid sessions with
    | None =>
        setItem_chat_sessions
          ({| id := sid; preview := or_else pv "New conversation"; timestamp := now |}
             :: sessions) b
    | Some (i, existing) =>
        if bool_decide (pv ≠ "" ∧ pv ≠ preview existing) then
          setItem_chat_sessions
            (<[i := {| id := id existing; preview := pv; timestamp := now |}]> sessions) b
        else b
    end
  else b.

Definition setCurrentSession (sid : string) (b : Browser) : Browser :=
  if window b then setItem_chat_session_id sid b else b.

Definition getCurrentSession (b : Browser) : string :=
  if window b then
    match chat_session_id b with
    | Some v => or_else v ""
    | None => ""
    end
  else "".

(** [createNewSession()]; [uuid] is the value of [uuidv4()]. Returns the new
    id together with the updated storage. *)
Definition createNewSession (uuid : string) (now : Z) (b : Browser) : string * Browser :=
  if window b then
    (uuid, saveSession uuid "" now (setCurrentSession uuid b))
  else ("", b).

(** ** The external boundary *)

(** The two requests the component issues: [GET /api/chat?sessionId=...]
    and [POST /api/chat] with body [{ sessionId, message }]. *)
Inductive Request :=
| GET (sid : string)
| POST (sid message : string).

Global Instance Request_eq_dec : EqDecision Request.
Proof. solve_decision. Defined.

(** How the [POST] settles, as [sendMessage] sees it: [fetch] rejects with
    an error carrying [message]; or the response is not [ok] and its body
    has an [error] field or not ([None] also stands for a body that is not
    JSON, which [.catch(() => ({}))] turns into [{}]); or the response is
    [ok] and its body carries the [reply] string of the route. *)
Inductive ExchangeResult :=
| NetworkError (message : string)
| HttpError (error : option string)
| Ok (reply : string).

(** How the [GET] settles, as [loadHistory] sees it: [fetch] rejects; or a
    response arrives, [ok] or not, whose body has a [messages] array or not
    ([None] also stands for a body that is not JSON). *)
Inductive HistoryResult :=
| HistoryNetworkError
| HistoryResponse (ok : bool) (messages : option (list Message)).

(** ** The component [ChatUI] *)

(** The [useState] cells of the component. *)
Record ChatUI := {
  sessionId : string;
  sessions : list Session;
  showSidebar : bool;
  messages : list Message;
  input : string;
  isTyping : bool;
  isLoadingHistory : bool;
  error : string
}.

(** The values given to [useState]. *)
Definition initialUI : ChatUI :=
  {| sessionId := ""; sessions := []; showSidebar := false; messages := [];
     input := ""; isTyping := false; isLoadingHistory := true; error := "" |}.

Definition setSessionId (v : string) (u : ChatUI) : ChatUI :=
  {| sessionId := v; sessions := sessions u; showSidebar := showSidebar u;
     messages := messages u; input := input u; isTyping := isTyping u;
     isLoadingHistory := isLoadingHistory u; error := error u |}.

Definition setSessions (v : list Session) (u : ChatUI) : ChatUI :=
  {| sessionId := sessionId u; sessions := v; showSidebar := showSidebar u;
     messages := messages u; input := input u; isTyping := isTyping u;
     isLoadingHistory := isLoadingHistory u; error := error u |}.

Definition setShowSidebar (v : bool) (u : ChatUI) : ChatUI :=
  {| sessionId := sessionId u; sessions := sessions u; showSidebar := v;
     messages := messages u; input := input u; isTyping := isTyping u;
     isLoadingHistory := isLoadingHistory u; error := error u |}.

(** [setMessages] in its functional form, [setMessages((prev) => f prev)];
    [setMessages(v)] is [setMessages (const v)]. *)
Definition setMessages (f : list Message → list Message) (u : ChatUI) : ChatUI :=
  {| sessionId := sessionId u; sessions := sessions u; showSidebar := showSidebar u;
     messages := f (messages u); input := input u; isTyping := isTyping u;
     isLoadingHistory := isLoadingHistory u; error := error u |}.

Definition setInput (v : string) (u : ChatUI) : ChatUI :=
  {| sessionId := sessionId u; sessions := sessions u; showSidebar := showSidebar u;
     messages := messages u; input := v; isTyping := isTyping u;
     isLoadingHistory := isLoadingHistory u; error := error u |}.

Definition setIsTyping (v : bool) (u : ChatUI) : ChatUI :=
  {| sessionId := sessionId u; sessions := sessions u; showSidebar := showSidebar u;
     messages := messages u; input := input u; isTyping := v;
     isLoadingHistory := isLoadingHistory u; error := error u |}.

Definition setIsLoadingHistory (v : bool) (u : ChatUI) : ChatUI :=
  {| sessionId := sessionId u; sessions := sessions u; showSidebar := showSidebar u;
     messages := messages u; input := input u; isTyping := isTyping u;
     isLoadingHistory := v; error := error u |}.

Definition setError (v : string) (u : ChatUI) : ChatUI :=
  {| sessionId := sessionId u; sessions := sessions u; showSidebar := showSidebar u;
     messages := messages u; input := input u; isTyping := isTyping u;
     isLoadingHistory := isLoadingHistory u; error := v |}.

(** Everything the program can read or write: the component state, the
    browser storage, the requests awaiting their response, and the log of
    every request issued so far. *)
Record World := {
  ui : ChatUI;
  browser : Browser;
  inflight : list Request;
  outbox : list Request
}.

Definition with_ui (f : ChatUI → ChatUI) (w : World) : World :=
  {| ui := f (ui w); browser := browser w;
     inflight := inflight w; outbox := outbox w |}.

Definition with_browser (f : Browser → Browser) (w : World) : World :=
  {| ui := ui w; browser := f (browser w);
     inflight := inflight w; outbox := outbox w |}.

(** [fetch(...)]: the request leaves and stays in flight until settled. *)
Definition fetch (q : Request) (w : World) : World :=
  {| ui := ui w; browser := browser w;
     inflight := inflight w ++ [q]; outbox := outbox w ++ [q] |}.

(** One occurrence of [q] leaves the requests in flight. *)
Fixpoint settle (q : Request) (l : list Request) : list Request :=
  match l with
  | [] => []
  | q' :: l' => if bool_decide (q' = q) then l' else q' :: settle q l'
  end.

Definition settled (q : Request) (w : World) : World :=
  {| ui := ui w; browser := browser w;
     inflight := settle q (inflight w); outbox := outbox w |}.

(** A freshly loaded page. *)
Definition initial (b : Browser) : World :=
  {| ui := initialUI; browser := b; inflight := []; outbox := [] |}.

(** The synthetic greeting shown when a session has no history. *)
Definition welcome : Message :=
  {| role := model; text := "Hi! I'm your Gemini-powered assistant. Ask me anything." |}.

(** The assistant message appended when a send fails. *)
Definition fallback : Message :=
  {| role := model; text := "I ran into an issue sending that. Please try again." |}.

(** The first effect, [useEffect(..., [])]: initialise the session on mount. *)
Definition mount (uuid : string) (now : Z) (w : World) : World :=
  let currentId := getCurrentSession (browser w) in
  let '(currentId, b) :=
    if bool_decide (currentId = "") then createNewSession uuid now (browser w)
    else (currentId, saveSession currentId "" now (browser w)) in
  with_ui (setSessions (getAllSessions b))
    (with_ui (setSessionId currentId) (with_browser (const b) w)).

(** [loadHistory] up to its [await]: the body of the second effect. The
    session id the function closes over is the one in the request. *)
Definition loadHistory (sid : string) (w : World) : World :=
  fetch (GET sid) (with_ui (setIsLoadingHistory true) w).

(** [.find((m) => m.role === "user")] *)
Definition firstUserMsg (ms : list Message) : option Message :=
  List.find (λ m, bool_decide (role m = user)) ms.

(** What a settled history request puts on display, the argument of the
    [setMessages] call that [loadHistory] reaches. *)
Definition history_view (r : HistoryResult) : list Message :=
  match r with
  | HistoryResponse true (Some (m :: ms)) => m :: ms
  | _ => [welcome]
  end.

(** [loadHistory] from its [await] on, for the request of session [sid]. *)
Definition loadHistory_settled (sid : string) (r : HistoryResult) (now : Z)
    (w : World) : World :=
  let w1 :=
    match r with
    | HistoryResponse true (Some (m :: ms)) =>
        let w' := with_ui (setMessages (const (m :: ms))) w in
        match firstUserMsg (m :: ms) with
        | Some fm =>
            let w'' := with_browser (saveSession sid (slice0 50 (text fm)) now) w' in
            with_ui (setSessions (getAllSessions (browser w''))) w''
        | None => w'
        end
    | HistoryResponse _ _ => with_ui (setMessages (const [welcome])) w
    | HistoryNetworkError => with_ui (setMessages (const [welcome])) w
    end in
  with_ui (setIsLoadingHistory false) w1.

Definition handleNewChat (uuid : string) (now : Z) (w : World) : World :=
  let '(newId, b) := createNewSession uuid now (browser w) in
  with_ui (setError "")
    (with_ui (setMessages (const []))
       (with_ui (setSessions (getAllSessions b))
          (with_ui (setSessionId newId) (with_browser (const b) w)))).

Definition handleSwitchSession (sid : string) (w : World) : World :=
  if bool_decide (sid = sessionId (ui w)) then w
  else
    with_ui (setError "")
      (with_ui (setShowSidebar false)
         (with_ui (setSessionId sid)
            (with_browser (setCurrentSession sid) w))).

(** [sendMessage] up to its [await]. [trimmed] and [messages.length] are
    read from the state the handler was created in. *)
Definition sendMessage (now : Z) (w : World) : World :=
  let w0 := with_ui (setError "") w in
  let trimmed := trim (input (ui w)) in
  if bool_decide (trimmed = "") || isTyping (ui w) || bool_decide (sessionId (ui w) = "")
  then w0
  else
    let userMsg := {| role := user; text := trimmed |} in
    let w1 := with_ui (setMessages (λ prev, prev ++ [userMsg])) w0 in
    let w2 := with_ui (setInput "") w1 in
    let w3 := with_ui (setIsTyping true) w2 in
    let w4 :=
      if bool_decide (length (messages (ui w)) ≤ 1)%nat then
        let w' := with_browser (saveSession (sessionId (ui w)) (slice0 50 trimmed) now) w3 in
        with_ui (setSessions (getAllSessions (browser w'))) w'
      else w3 in
    fetch (POST (sessionId (ui w)) trimmed) w4.

(** The text [sendMessage] puts in the error banner:
    [err?.message || "Something went wrong."], where a response that is not
    [ok] throws [new Error(data?.error || "Request failed.")]. *)
Definition failure_message (r : ExchangeResult) : string :=
  match r with
  | NetworkError m => or_else m "Something went wrong."
  | HttpError e =>
      or_else (or_else (default "" e) "Request failed.") "Something went wrong."
  | Ok _ => ""
  end.

(** [sendMessage] from its [await] on. *)
Definition sendMessage_settled (r : ExchangeResult) (w : World) : World :=
  let w1 :=
    match r with
    | Ok reply =>
        with_ui (setMessages (λ prev, prev ++ [{| role := model; text := reply |}])) w
    | _ =>
        with_ui (setMessages (λ prev, prev ++ [fallback]))
          (with_ui (setError (failure_message r)) w)
    end in
  with_ui (setIsTyping false) w1.

(** ** Events and steps *)

(** What can happen to a mounted component: the mount effect, the user's
    actions, and the settling of a request that is in flight. *)
Inductive Event :=
| Mount (uuid : string) (now : Z)
| NewChat (uuid : string) (now : Z)
| SwitchSession (sid : string)
| ChangeInput (v : string)
| ToggleSidebar
| CloseSidebar
| Submit (now : Z)
| ExchangeSettled (sid message : string) (r : ExchangeResult)
| HistorySettled (sid : string) (r : HistoryResult) (now : Z).

(** The handler an event runs. A response can only arrive for a request
    that is in flight. *)
Definition handle (e : Event) (w : World) : World :=
  match e with
  | Mount uuid now => mount uuid now w
  | NewChat uuid now => handleNewChat uuid now w
  | SwitchSession sid => handleSwitchSession sid w
  | ChangeInput v => with_ui (setInput v) w
  | ToggleSidebar => with_ui (setShowSidebar (negb (showSidebar (ui w)))) w
  | CloseSidebar => with_ui (setShowSidebar false) w
  | Submit now => sendMessage now w
  | ExchangeSettled sid msg r =>
      if bool_decide (POST sid msg ∈ inflight w)
      then sendMessage_settled r (settled (POST sid msg) w)
      else w
  | HistorySettled sid r now =>
      if bool_decide (GET sid ∈ inflight w)
      then loadHistory_settled sid r now (settled (GET sid) w)
      else w
  end.

(** The second effect, [useEffect(..., [sessionId])], after a render in
    which [sessionId] differs from its previous value [old]. *)
Definition sessionId_effect (old : string) (w : World) : World :=
  if bool_decide (sessionId (ui w) = old) then w
  else if bool_decide (sessionId (ui w) = "") then w
  else loadHistory (sessionId (ui w)) w.

(** One event: its handler, then the effects of the render that follows. *)
Definition step (w : World) (e : Event) : World :=
  sessionId_effect (sessionId (ui w)) (handle e w).

Definition run (w : World) (evs : list Event) : World :=
  foldl step w evs.


(** The number of directory entries whose id is [sid]. *)
Definition occurrences (sid : string) (l : list Session) : nat :=
  length (filter (λ s, id s = sid) l).


(** ** Vocabulary of the properties *)

(** The guard of [sendMessage] lets the send through. *)
Definition can_send (w : World) : Prop :=
  trim (input (ui w)) ≠ "" ∧ isTyping (ui w) = false ∧ sessionId (ui w) ≠ "".

(** The exchange failed: transport error or a status that is not [ok]. *)
Definition failed (r : ExchangeResult) : bool :=
  match r with
  | NetworkError _ | HttpError _ => true
  | Ok _ => false
  end.

(** The history fetch failed or brought no message. *)
Definition no_history (r : HistoryResult) : bool :=
  match r with
  | HistoryNetworkError => true
  | HistoryResponse false _ => true
  | HistoryResponse true None => true
  | HistoryResponse true (Some ms) => bool_decide (ms = [])
  end.

(** Events that neither settle a request nor change the session: typing,
    the sidebar, and pressing send. *)
Definition quiet (e : Event) : bool :=
  match e with
  | ChangeInput _ | ToggleSidebar | CloseSidebar | Submit _ => true
  | _ => false
  end.

(** Two worlds that agree on everything a request can depend on: they may
    differ in the messages on display, the error banner, the loading flag,
    the sidebar and the directory. *)
Definition same_request_view (w1 w2 : World) : Prop :=
  sessionId (ui w1) = sessionId (ui w2) ∧
  input (ui w1) = input (ui w2) ∧
  isTyping (ui w1) = isTyping (ui w2) ∧
  window (browser w1) = window (browser w2) ∧
  chat_session_id (browser w1) = chat_session_id (browser w2) ∧
  inflight w1 = inflight w2 ∧
  outbox w1 = outbox w2.

(** ** A concrete session *)

(** A browser that has visited two sessions, [A] being the current one. *)
Definition two_sessions : Browser :=
  {| window := true;
     chat_sessions :=
       SessionsArray
         [ {| id := "A"; preview := "first thread"; timestamp := 10 |};
           {| id := "B"; preview := "second thread"; timestamp := 20 |} ];
     chat_session_id := Some "A" |}.

Definition history_A : list Message :=
  [ {| role := user; text := "first thread" |};
    {| role := model; text := "answer in A" |} ].

Definition history_B : list Message :=
  [ {| role := user; text := "second thread" |};
    {| role := model; text := "answer in B" |} ].

(** The page loads on session [A] and shows its history. *)
Definition ready_on_A : World :=
  run (initial two_sessions)
    [ Mount "unused" 30;
      HistorySettled "A" (HistoryResponse true (Some history_A)) 31 ].

(** The user sends "hello" in [A], switches to [B] while the send is in
    flight, and the history of [B] arrives. *)
Definition switched_to_B_while_sending : World :=
  run ready_on_A
    [ ChangeInput "hello";
      Submit 32;
      SwitchSession "B";
      HistorySettled "B" (HistoryResponse true (Some history_B)) 33 ].

(** The user switches from [A] to [B] and back to [A] before either
    history has arrived; the history of [A] arrives first. *)
Definition back_on_A_while_B_loads : World :=
  run ready_on_A
    [ SwitchSession "B";
      SwitchSession "A";
      HistorySettled "A" (HistoryResponse true (Some history_A)) 34 ].

(** A send in [A] has failed and its error is on display. *)
Definition after_failed_send : World :=
  run ready_on_A
    [ ChangeInput "hello";
      Submit 32;
      ExchangeSettled "A" "hello" (HttpError None) ].


(** The user has typed a message in [A], with blanks around it. *)
Definition typed_hello : World :=
  run ready_on_A [ ChangeInput "  hello " ].

(** The send of "hello" in [A] is in flight. *)
Definition sending_hello : World :=
  run ready_on_A [ ChangeInput "hello"; Submit 32 ].

(** A text of 120 characters. *)
Definition long_text : string :=
  "Please summarise the attached meeting notes for me and list every action item together with its owner and due date, okay".

(** A new chat [C] shows the welcome message and the user has typed the
    long text. *)
Definition new_chat_typed : World :=
  run (initial two_sessions)
    [ Mount "unused" 30;
      NewChat "C" 31;
      HistorySettled "C" (HistoryResponse true (Some [])) 32;
      ChangeInput long_text ].

(** The page has just been mounted: the history of [A] is being fetched. *)
Definition just_mounted : World :=
  run (initial two_sessions) [ Mount "unused" 30 ].

(** ** What the component renders *)

(** The message pane: the placeholder "Loading chat history..." or one
    bubble per message, each with [isUser] and the text. *)
Inductive Pane :=
| LoadingPlaceholder
| Bubbles (l : list (bool * string)).

(** One button of the sidebar: its key, the preview and timestamp it
    shows, and whether it carries the highlight of the active session. *)
Record SidebarItem := {
  item_key : string;
  item_preview : string;
  item_timestamp : Z;
  item_active : bool
}.

(** The parts of the rendered tree that depend on the state. An empty
    [sidebar_items] is rendered as "No previous chats". *)
Record View := {
  overlay : bool;
  sidebar_items : list SidebarItem;
  header_session : string;
  pane : Pane;
  typing_indicator : bool;
  error_banner : option string;
  input_value : string;
  send_disabled : bool
}.

(** The [return (...)] of [ChatUI]. *)
Definition render (u : ChatUI) : View :=
  {| overlay := showSidebar u;
     sidebar_items :=
       (λ session,
          {| item_key := id session;
             item_preview := preview session;
             item_timestamp := timestamp session;
             item_active := bool_decide (id session = sessionId u) |})
         <$> sessions u;
     header_session := or_else (sessionId u) "loading...";
     pane :=
       if isLoadingHistory u then LoadingPlaceholder
       else Bubbles ((λ m, (bool_decide (role m = user), text m)) <$> messages u);
     typing_indicator := isTyping u;
     error_banner := if bool_decide (error u = "") then None else Some (error u);
     input_value := input u;
     send_disabled := isTyping u || bool_decide (trim (input u) = "") |}.

(** ** Vocabulary of further properties *)

Definition is_POST (q : Request) : bool :=
  match q with
  | POST _ _ => true
  | GET _ => false
  end.

(** A request the server can make sense of: a session id, and for a send a
    message that is not empty and carries no blanks around it. *)
Definition well_formed (q : Request) : Prop :=
  match q with
  | GET sid => sid ≠ ""
  | POST sid message => sid ≠ "" ∧ message ≠ "" ∧ trim message = message
  end.

Definition settles_exchange (e : Event) : bool :=
  match e with
  | ExchangeSettled _ _ _ => true
  | _ => false
  end.

(** The directory as the helpers see it holds no id twice. *)
Definition unique_ids (b : Browser) : Prop :=
  NoDup (id <$> getAllSessions b).

(** A browser whose stored directory is not valid JSON. *)
Definition unreadable_directory : Browser :=
  {| window := true; chat_sessions := NotJSON; chat_session_id := Some "A" |}.

(** What the user does while the send of "hello" is in flight, short of
    receiving its response. *)
Definition impatient_events : list Event :=
  [ SwitchSession "B"; ChangeInput "again"; Submit 40; NewChat "C" 41;
    ChangeInput "and again"; Submit 42 ].

(** ** Vocabulary of the revised properties *)

(** Events after which the message list is what it was: all but a new
    chat, which empties it, a history that settles, which replaces it, and
    the response of an exchange, which appends to it. *)
Definition keeps_list (e : Event) : bool :=
  match e with
  | NewChat _ _ | HistorySettled _ _ _ | ExchangeSettled _ _ _ => false
  | _ => true
  end.

Definition settles_history (e : Event) : bool :=
  match e with
  | HistorySettled _ _ _ => true
  | _ => false
  end.

(** The page has just been mounted on [A]; the user types "hello" before
    the history of [A] has arrived. *)
Definition typed_before_history : World :=
  run (initial two_sessions) [ Mount "unused" 30; ChangeInput "hello" ].

(** The user sends at once; the history of [A] arrives while the send is
    in flight; then the exchange fails. *)
Definition history_then_failure : list Event :=
  [ Submit 31;
    HistorySettled "A" (HistoryResponse true (Some history_A)) 32;
    ExchangeSettled "A" "hello" (HttpError None) ].


(** * Properties *)

(** ** The session directory *)

Section Directory.

Implicit Types (b : Browser) (l : list Session) (sid pv : string) (now : Z).

Lemma find_session_None sid l :
  find_session sid l = None ↔ sid ∉ id <$> l.
Proof.
  unfold find_session. rewrite list_find_None, Forall_forall.
  split.
  - intros H Hin. apply list_elem_of_fmap in Hin as (s & -> & Hs).
    by apply (H s).
  - intros H s Hs Heq. apply H. apply list_elem_of_fmap. eauto.
Qed.

Lemma find_session_Some sid l i e :
  find_session sid l = Some (i, e) →
  l !! i = Some e ∧ id e = sid ∧ ∀ j s, l !! j = Some s → j < i → id s ≠ sid.
Proof. unfold find_session. by rewrite list_find_Some. Qed.

Lemma find_session_stored b sid i e :
  find_session sid (getAllSessions b) = Some (i, e) →
  window b = true ∧ chat_sessions b = SessionsArray (getAllSessions b).
Proof.
  unfold getAllSessions. destruct (window b); [|done].
  destruct (chat_sessions b); done.
Qed.

Lemma getAllSessions_setItem l b :
  window b = true → getAllSessions (setItem_chat_sessions l b) = l.
Proof. unfold getAllSessions. simpl. by intros ->. Qed.

Lemma saveSession_window sid pv now b :
  window (saveSession sid pv now b) = window b.
Proof.
  unfold saveSession. destruct (window b) eqn:Hw; [|done].
  destruct (find_session _ _) as [[i e]|]; [|done].
  by case_bool_decide.
Qed.

Lemma saveSession_chat_session_id sid pv now b :
  chat_session_id (saveSession sid pv now b) = chat_session_id b.
Proof.
  unfold saveSession. destruct (window b) eqn:Hw; [|done].
  destruct (find_session _ _) as [[i e]|]; [|done].
  by case_bool_decide.
Qed.

Lemma saveSession_unknown sid pv now b :
  window b = true →
  sid ∉ id <$> getAllSessions b →
  getAllSessions (saveSession sid pv now b) =
    {| id := sid; preview := or_else pv "New conversation"; timestamp := now |}
      :: getAllSessions b.
Proof.
  intros Hw Hnew. apply find_session_None in Hnew.
  unfold saveSession. rewrite Hw, Hnew.
  by rewrite getAllSessions_setItem.
Qed.



Lemma saveSession_known_differing sid pv now b i e :
  find_session sid (getAllSessions b) = Some (i, e) →
  pv ≠ "" →
  pv ≠ preview e →
  getAllSessions (saveSession sid pv now b) =
    <[i := {| id := sid; preview := pv; timestamp := now |}]> (getAllSessions b).
Proof.
  intros Hfind Hne Hdiff.
  destruct (find_session_stored _ _ _ _ Hfind) as [Hw _].
  destruct (find_session_Some _ _ _ _ Hfind) as (_ & Hid & _).
  unfold saveSession. rewrite Hw, Hfind.
  rewrite bool_decide_eq_true_2 by done.
  by rewrite getAllSessions_setItem, Hid.
Qed.

Lemma find_session_insert sid l i e e' :
  find_session sid l = Some (i, e) →
  id e' = sid →
  find_session sid (<[i := e']> l) = Some (i, e').
Proof.
  intros (Hi & Hid & Hfirst)%find_session_Some Hid'.
  assert (Hlt : i < length l) by by eapply lookup_lt_Some.
  unfold find_session. apply list_find_Some.
  split; [by rewrite list_lookup_insert_eq|]. split; [done|].
  intros j s Hj Hji. rewrite list_lookup_insert_ne in Hj by lia.
  by eapply Hfirst.
Qed.

(** After [saveSession] with a non-empty preview, the entry that [find]
    returns for the id carries that preview. *)
Lemma saveSession_sets_preview sid pv now b :
  window b = true →
  pv ≠ "" →
  ∃ i e, find_session sid (getAllSessions (saveSession sid pv now b)) = Some (i, e)
         ∧ id e = sid ∧ preview e = pv.
Proof.
  intros Hw Hne.
  destruct (find_session sid (getAllSessions b)) as [[i e]|] eqn:Hfind.
  - destruct (decide (pv = preview e)) as [Heq|Hdiff].
    + exists i, e. unfold saveSession. rewrite Hw, Hfind.
      rewrite bool_decide_eq_false_2 by (intros [_ ?]; done).
      rewrite Hfind. by apply find_session_Some in Hfind as (_ & ? & _).
    + exists i, {| id := sid; preview := pv; timestamp := now |}.
      rewrite (saveSession_known_differing sid pv now b i e) by done.
      split; [|done]. by eapply find_session_insert.
  - exists 0, {| id := sid; preview := pv; timestamp := now |}.
    apply find_session_None in Hfind.
    rewrite saveSession_unknown by done.
    unfold or_else. rewrite bool_decide_eq_false_2 by done.
    split; [|done]. unfold find_session. simpl. by rewrite decide_True.
Qed.



Lemma occurrences_absent sid l :
  sid ∉ id <$> l → occurrences sid l = 0.
Proof.
  unfold occurrences. induction l as [|s l IH]; [done|].
  simpl. intros Hnin. apply not_elem_of_cons in Hnin as [Hne Hnin].
  rewrite filter_cons_False by done. by apply IH.
Qed.



End Directory.

Section DirectoryClaims.

Implicit Types (b : Browser) (l : list Session) (sid pv : string) (now : Z).

(** C7. For a session id present in the directory, [saveSession] called
    with the preview omitted (it then defaults to the empty string) or
    with the preview already stored is a no-op: the persisted state,
    hence the whole directory and the entry's timestamp, is unchanged. *)
Theorem saveSession_same_preview_noop b sid pv now i e :
  find_session sid (getAllSessions b) = Some (i, e) →
  pv = "" ∨ pv = preview e →
  saveSession sid pv now b = b ∧
  getAllSessions (saveSession sid pv now b) = getAllSessions b ∧
  timestamp <$> getAllSessions (saveSession sid pv now b) !! i = Some (timestamp e).
Proof.
  intros Hfind Hpv.
  assert (Hsame : saveSession sid pv now b = b).
  { unfold saveSession. rewrite Hfind.
    destruct (window b); [|done].
    rewrite bool_decide_eq_false_2; [done|].
    intros [Hne Hdiff]. by destruct Hpv. }
  rewrite Hsame. split; [done|]. split; [done|].
  apply find_session_Some in Hfind as (Hi & _ & _). by rewrite Hi.
Qed.

(** C10. For a session id present in the directory, [saveSession] called
    with a non-empty preview that differs from the stored one rewrites
    the entry found, in place: that entry keeps its id and its index and
    gets the new preview and the current time; the directory keeps its
    length, every other index keeps its entry, and the sequence of ids is
    the same. The current-session key is not touched. *)
Theorem saveSession_differing_preview_frame b sid pv now i e :
  find_session sid (getAllSessions b) = Some (i, e) →
  pv ≠ "" →
  pv ≠ preview e →
  let b' := saveSession sid pv now b in
  getAllSessions b' !! i = Some {| id := sid; preview := pv; timestamp := now |} ∧
  find_session sid (getAllSessions b') =
    Some (i, {| id := sid; preview := pv; timestamp := now |}) ∧
  length (getAllSessions b') = length (getAllSessions b) ∧
  (∀ j, j ≠ i → getAllSessions b' !! j = getAllSessions b !! j) ∧
  id <$> getAllSessions b' = id <$> getAllSessions b ∧
  chat_session_id b' = chat_session_id b.
Proof.
  intros Hfind Hne Hdiff b'.
  destruct (find_session_stored _ _ _ _ Hfind) as [Hw _].
  destruct (find_session_Some _ _ _ _ Hfind) as (Hi & Hid & Hfirst).
  assert (Hl : getAllSessions b' =
               <[i := {| id := sid; preview := pv; timestamp := now |}]> (getAllSessions b))
    by by apply (saveSession_known_differing sid pv now b i e).
  assert (Hlt : i < length (getAllSessions b)) by by eapply lookup_lt_Some.
  split; [by rewrite Hl, list_lookup_insert_eq|].
  split.
  { rewrite Hl. by eapply find_session_insert. }
  split; [by rewrite Hl, length_insert|].
  split; [by intros j Hj; rewrite Hl, list_lookup_insert_ne|].
  split.
  - rewrite Hl, list_fmap_insert. apply list_insert_id.
    by rewrite list_lookup_fmap, Hi, <- Hid.
  - apply saveSession_chat_session_id.
Qed.


End DirectoryClaims.

(** ** Sending *)

Section Sending.

Implicit Types (w : World) (now : Z) (r : ExchangeResult).

Lemma guard_passes w :
  bool_decide (trim (input (ui w)) = "") || isTyping (ui w)
    || bool_decide (sessionId (ui w) = "") = false ↔ can_send w.
Proof.
  unfold can_send. rewrite !orb_false_iff, !bool_decide_eq_false. tauto.
Qed.

Lemma sessionId_effect_same old w :
  sessionId (ui w) = old → sessionId_effect old w = w.
Proof. intros H. unfold sessionId_effect. by rewrite bool_decide_eq_true_2. Qed.

Lemma sendMessage_sessionId now w :
  sessionId (ui (sendMessage now w)) = sessionId (ui w).
Proof.
  unfold sendMessage. destruct (_ || _); [done|].
  by case_bool_decide.
Qed.

Lemma step_Submit w now :
  step w (Submit now) = sendMessage now w.
Proof. apply sessionId_effect_same, sendMessage_sessionId. Qed.

Lemma sendMessage_blocked w now :
  ¬ can_send w → sendMessage now w = with_ui (setError "") w.
Proof.
  intros Hno. unfold sendMessage.
  destruct (_ || _) eqn:Hg; [done|]. by apply guard_passes in Hg.
Qed.

(** The state [sendMessage] leaves when the guard lets it through. *)
Lemma sendMessage_sends w now :
  can_send w →
  let trimmed := trim (input (ui w)) in
  let w' := sendMessage now w in
  messages (ui w') = messages (ui w) ++ [{| role := user; text := trimmed |}] ∧
  input (ui w') = "" ∧
  isTyping (ui w') = true ∧
  error (ui w') = "" ∧
  inflight w' = inflight w ++ [POST (sessionId (ui w)) trimmed] ∧
  outbox w' = outbox w ++ [POST (sessionId (ui w)) trimmed] ∧
  browser w' =
    (if bool_decide (length (messages (ui w)) ≤ 1)%nat
     then saveSession (sessionId (ui w)) (slice0 50 trimmed) now (browser w)
     else browser w) ∧
  sessions (ui w') =
    (if bool_decide (length (messages (ui w)) ≤ 1)%nat
     then getAllSessions (browser w')
     else sessions (ui w)).
Proof.
  intros Hok trimmed w'. apply guard_passes in Hok.
  unfold w', sendMessage. rewrite Hok. fold trimmed.
  by destruct (bool_decide (length (messages (ui w)) ≤ 1)%nat).
Qed.

Lemma elem_of_settle_other (q q' : Request) l :
  q ∈ l → q ∈ settle q' l ∨ q = q'.
Proof.
  induction l as [|x l IH]; [by intros ?%elem_of_nil|].
  simpl. intros [->|Hin]%elem_of_cons.
  - case_bool_decide; [by right|]. left. left.
  - case_bool_decide; [by left|].
    destruct (IH Hin); [left; by right|by right].
Qed.

(** C4. When the guard of [sendMessage] passes (trimmed input not empty,
    no send in flight, a session id present), then as soon as the handler
    has run, with the request still in flight, the message list is the
    previous one followed by the user message carrying the trimmed text,
    which is therefore its last element, and the input is empty. *)
Theorem sendMessage_optimistic_append w now :
  can_send w →
  let trimmed := trim (input (ui w)) in
  let w' := step w (Submit now) in
  messages (ui w') = messages (ui w) ++ [{| role := user; text := trimmed |}] ∧
  last (messages (ui w')) = Some {| role := user; text := trimmed |} ∧
  input (ui w') = "" ∧
  isTyping (ui w') = true ∧
  POST (sessionId (ui w)) trimmed ∈ inflight w'.
Proof.
  intros Hok trimmed w'. unfold w'. rewrite step_Submit.
  destruct (sendMessage_sends w now Hok) as (Hm & Hi & Ht & _ & Hf & _).
  fold trimmed in Hm, Hf.
  split; [done|]. split; [by rewrite Hm, last_snoc|].
  split; [done|]. split; [done|].
  rewrite Hf. apply elem_of_app. right. left.
Qed.

(** C5 (amended). When the guard of [sendMessage] fails (trimmed input
    empty, or a send in flight, or no session id), the call only clears
    the error banner, which the handler does before the guard: message
    list, input, sending flag, directory and current-session key are
    unchanged and no request is issued. *)
Theorem sendMessage_blocked_only_clears_error w now :
  ¬ can_send w →
  let w' := step w (Submit now) in
  w' = with_ui (setError "") w ∧
  error (ui w') = "" ∧
  messages (ui w') = messages (ui w) ∧
  input (ui w') = input (ui w) ∧
  isTyping (ui w') = isTyping (ui w) ∧
  sessions (ui w') = sessions (ui w) ∧
  browser w' = browser w ∧
  inflight w' = inflight w ∧
  outbox w' = outbox w.
Proof.
  intros Hno w'. unfold w'.
  rewrite step_Submit, sendMessage_blocked by done. done.
Qed.

End Sending.

Section Strings.

Lemma or_else_nonempty a b : b ≠ "" → or_else a b ≠ "".
Proof. intros Hb. unfold or_else. by case_bool_decide. Qed.

Lemma slice0_nonempty n s : s ≠ "" → slice0 (S n) s ≠ "".
Proof. by destruct s. Qed.

Lemma slice0_length n s :
  String.length (slice0 n s) = n `min` String.length s.
Proof.
  revert s. induction n as [|n IH]; intros [|c s]; simpl; try done.
  by rewrite IH.
Qed.

Lemma slice0_prefix n s : ∃ rest, s = slice0 n s +:+ rest.
Proof.
  revert s. induction n as [|n IH]; intros [|c s]; simpl; eauto.
  destruct (IH s) as [rest Hrest]. exists rest.
  change (String c s = String c (slice0 n s +:+ rest)). by rewrite <- Hrest.
Qed.

End Strings.

Section SendingOutcome.

Implicit Types (w : World) (now : Z) (r : ExchangeResult).

Lemma step_ExchangeSettled w sid msg r :
  POST sid msg ∈ inflight w →
  step w (ExchangeSettled sid msg r) =
    sendMessage_settled r (settled (POST sid msg) w).
Proof.
  intros Hin. unfold step, handle. rewrite bool_decide_eq_true_2 by done.
  apply sessionId_effect_same. by destruct r.
Qed.

Lemma failure_message_nonempty r : failed r = true → failure_message r ≠ "".
Proof. destruct r; [| |done]; intros _; by apply or_else_nonempty. Qed.

(** While a send is in flight, a quiet event leaves the message list, the
    sending flag, the session and the requests in flight alone. *)
Lemma quiet_step_while_sending w e :
  quiet e = true →
  isTyping (ui w) = true →
  messages (ui (step w e)) = messages (ui w) ∧
  isTyping (ui (step w e)) = true ∧
  sessionId (ui (step w e)) = sessionId (ui w) ∧
  inflight (step w e) = inflight w.
Proof.
  intros Hq Ht. destruct e; try done.
  - by unfold step; rewrite sessionId_effect_same.
  - by unfold step; rewrite sessionId_effect_same.
  - by unfold step; rewrite sessionId_effect_same.
  - rewrite step_Submit, sendMessage_blocked; [done|].
    intros (_ & Hf & _). congruence.
Qed.

Lemma quiet_run_while_sending evs w :
  Forall (λ e, quiet e = true) evs →
  isTyping (ui w) = true →
  messages (ui (run w evs)) = messages (ui w) ∧
  isTyping (ui (run w evs)) = true ∧
  sessionId (ui (run w evs)) = sessionId (ui w) ∧
  inflight (run w evs) = inflight w.
Proof.
  revert w. induction evs as [|e evs IH]; intros w Hq Ht; [done|].
  apply Forall_cons in Hq as [He Hq].
  destruct (quiet_step_while_sending w e He Ht) as (Hm & Ht' & Hs & Hf).
  destruct (IH (step w e) Hq Ht') as (Hm' & Ht'' & Hs' & Hf').
  unfold run in *. simpl. by rewrite Hm', Hs', Hf', Hm, Hs, Hf.
Qed.

End SendingOutcome.

Section Preview.

Implicit Types (w : World) (now : Z).

Lemma sendMessage_browser_later w now :
  (1 < length (messages (ui w)))%nat → browser (sendMessage now w) = browser w.
Proof.
  intros Hlen. unfold sendMessage. destruct (_ || _); [done|].
  by rewrite bool_decide_eq_false_2 by lia.
Qed.

Lemma sendMessage_settled_frame r w :
  browser (sendMessage_settled r w) = browser w ∧
  ∃ m, messages (ui (sendMessage_settled r w)) = messages (ui w) ++ [m].
Proof. destruct r; simpl; eauto. Qed.

(** C8. A send passes the guard in a browser. If the message list held at
    most one message before the optimistic append, the directory entry of
    the active session afterwards carries as preview exactly the first 50
    characters of the trimmed text, and the sidebar shows that directory;
    for a trimmed text of 120 characters that preview has length 50 and
    is a prefix of the text. A later send does not update the preview: a
    send made while the list holds more than one message leaves the
    directory unchanged, and so does the send that follows once this
    exchange has settled, with whatever result. *)
Theorem sendMessage_first_exchange_preview w now :
  window (browser w) = true →
  can_send w →
  let sid := sessionId (ui w) in
  let trimmed := trim (input (ui w)) in
  let w' := step w (Submit now) in
  ((length (messages (ui w)) ≤ 1)%nat →
     ∃ i e, find_session sid (getAllSessions (browser w')) = Some (i, e) ∧
            preview e = slice0 50 trimmed ∧
            sessions (ui w') = getAllSessions (browser w')) ∧
  (String.length trimmed = 120 →
     String.length (slice0 50 trimmed) = 50 ∧
     ∃ rest, trimmed = slice0 50 trimmed +:+ rest) ∧
  ((1 < length (messages (ui w)))%nat →
     browser w' = browser w ∧ sessions (ui w') = sessions (ui w)) ∧
  (∀ r v now',
     let w1 := step w' (ExchangeSettled sid trimmed r) in
     browser (step (step w1 (ChangeInput v)) (Submit now')) = browser w').
Proof.
  intros Hw Hok sid trimmed w'. unfold w'. rewrite step_Submit.
  destruct (sendMessage_sends w now Hok) as (Hm & _ & _ & _ & Hf & _ & Hb & Hs).
  fold trimmed sid in Hm, Hf, Hb, Hs.
  split; [|split; [|split]].
  4: { intros r v now'.
    assert (Hin : POST sid trimmed ∈ inflight (sendMessage now w)).
    { rewrite Hf. apply elem_of_app. right. left. }
    rewrite step_ExchangeSettled by done.
    destruct (sendMessage_settled_frame r (settled (POST sid trimmed) (sendMessage now w)))
      as (Hb1 & m & Hm1).
    rewrite step_Submit, sendMessage_browser_later.
    - unfold step. by rewrite sessionId_effect_same.
    - unfold step. rewrite sessionId_effect_same by done.
      change (1 < length (messages (ui (sendMessage_settled r
                (settled (POST sid trimmed) (sendMessage now w))))))%nat.
      rewrite Hm1.
      change (messages (ui (settled (POST sid trimmed) (sendMessage now w))))
        with (messages (ui (sendMessage now w))).
      rewrite Hm, !length_app. simpl. lia. }
  - intros Hlen. rewrite bool_decide_eq_true_2 in Hb, Hs by done.
    destruct (saveSession_sets_preview sid (slice0 50 trimmed) now (browser w) Hw)
      as (i & e & Hfind & _ & Hpv).
    { apply slice0_nonempty, Hok. }
    exists i, e. by rewrite Hs, Hb.
  - intros Hlen. split; [|apply slice0_prefix].
    rewrite slice0_length, Hlen. done.
  - intros Hlen. rewrite bool_decide_eq_false_2 in Hb, Hs by lia. done.
Qed.

End Preview.

(** ** Loading history *)

Section History.

Implicit Types (w : World) (now : Z) (r : HistoryResult).

Lemma loadHistory_settled_sessionId sid r now w :
  sessionId (ui (loadHistory_settled sid r now w)) = sessionId (ui w).
Proof.
  unfold loadHistory_settled.
  destruct r as [|[] [[|m ms]|]]; try done.
  by destruct (firstUserMsg (m :: ms)).
Qed.

Lemma loadHistory_settled_messages sid r now w :
  messages (ui (loadHistory_settled sid r now w)) = history_view r.
Proof.
  unfold loadHistory_settled.
  destruct r as [|[] [[|m ms]|]]; try done.
  by destruct (firstUserMsg (m :: ms)).
Qed.

Lemma step_HistorySettled w sid r now :
  GET sid ∈ inflight w →
  step w (HistorySettled sid r now) =
    loadHistory_settled sid r now (settled (GET sid) w).
Proof.
  intros Hin. unfold step, handle. rewrite bool_decide_eq_true_2 by done.
  apply sessionId_effect_same. by rewrite loadHistory_settled_sessionId.
Qed.

Lemma history_view_no_history r : no_history r = true → history_view r = [welcome].
Proof.
  by destruct r as [|[] [[|m ms]|]].
Qed.

Lemma loadHistory_settled_no_history sid r now w :
  no_history r = true →
  loadHistory_settled sid r now w =
    with_ui (setIsLoadingHistory false) (with_ui (setMessages (const [welcome])) w).
Proof.
  by destruct r as [|[] [[|m ms]|]].
Qed.

(** C2 (amended). A history load that settles puts its own result on
    display, whatever the active session is at that time: the fetched
    messages when the response is [ok] and not empty, the welcome message
    otherwise. The code compares no session id when a load settles, so
    the list on display is that of the load that settled last; the active
    session itself is not changed by a load. *)
Theorem loadHistory_settles_unconditionally w sid r now :
  GET sid ∈ inflight w →
  let w' := step w (HistorySettled sid r now) in
  messages (ui w') = history_view r ∧
  isLoadingHistory (ui w') = false ∧
  sessionId (ui w') = sessionId (ui w).
Proof.
  intros Hin w'. unfold w'. rewrite step_HistorySettled by done.
  split; [apply loadHistory_settled_messages|].
  split; [|by rewrite loadHistory_settled_sessionId].
  unfold loadHistory_settled.
  by destruct r as [|[] [[|m ms]|]].
Qed.

Lemma step_SwitchSession_frame w sid :
  messages (ui (step w (SwitchSession sid))) = messages (ui w) ∧
  isTyping (ui (step w (SwitchSession sid))) = isTyping (ui w) ∧
  ∀ q, q ∈ inflight w → q ∈ inflight (step w (SwitchSession sid)).
Proof.
  unfold step, handle, handleSwitchSession, sessionId_effect, loadHistory.
  repeat case_bool_decide; simpl; repeat split; try done.
  intros q Hq. apply elem_of_app. by left.
Qed.

(** C1 (amended). A send is in flight and the user switches to another
    session. The switch changes neither the message list held in the state
    nor the request in flight (nothing is cancelled). When the exchange
    then succeeds, the reply is not discarded: the code compares no
    session id, and appends the reply as an assistant message to the list
    held at that time, under the session that is now active; the pane
    shows it as the last bubble unless the loading placeholder is up. A
    history load that settles afterwards replaces the list by its own
    result, which removes the reply. *)
Theorem sendMessage_reply_appended_after_switch w a msg b reply :
  POST a msg ∈ inflight w →
  let w1 := step w (SwitchSession b) in
  let w2 := step w1 (ExchangeSettled a msg (Ok reply)) in
  messages (ui w1) = messages (ui w) ∧
  POST a msg ∈ inflight w1 ∧
  messages (ui w2) = messages (ui w1) ++ [{| role := model; text := reply |}] ∧
  sessionId (ui w2) = sessionId (ui w1) ∧
  isTyping (ui w2) = false ∧
  pane (render (ui w2)) =
    (if isLoadingHistory (ui w1) then LoadingPlaceholder
     else Bubbles ((λ m, (bool_decide (role m = user), text m))
                     <$> (messages (ui w1) ++ [{| role := model; text := reply |}]))) ∧
  ∀ sid r now,
    GET sid ∈ inflight w2 →
    messages (ui (step w2 (HistorySettled sid r now))) = history_view r.
Proof.
  intros Hin w1 w2.
  destruct (step_SwitchSession_frame w b) as (Hm & _ & Hf).
  fold w1 in Hm, Hf. specialize (Hf _ Hin).
  split; [done|]. split; [done|].
  assert (Hlast : ∀ sid r now,
             GET sid ∈ inflight w2 →
             messages (ui (step w2 (HistorySettled sid r now))) = history_view r).
  { intros sid r now Hget. rewrite step_HistorySettled by done.
    apply loadHistory_settled_messages. }
  revert Hlast. unfold w2. rewrite step_ExchangeSettled by done.
  intros Hlast. repeat split; done.
Qed.

End History.

(** ** What reaches the server *)

Section RequestView.

Implicit Types (w : World) (b : Browser) (now : Z).

Local Ltac view_done :=
  unfold same_request_view in *; simpl in *;
  rewrite ?saveSession_window, ?saveSession_chat_session_id;
  intuition congruence.

Lemma getCurrentSession_view b1 b2 :
  window b1 = window b2 →
  chat_session_id b1 = chat_session_id b2 →
  getCurrentSession b1 = getCurrentSession b2.
Proof. unfold getCurrentSession. by intros -> ->. Qed.

Lemma createNewSession_view uuid now b1 b2 :
  window b1 = window b2 →
  chat_session_id b1 = chat_session_id b2 →
  (createNewSession uuid now b1).1 = (createNewSession uuid now b2).1 ∧
  window (createNewSession uuid now b1).2 = window (createNewSession uuid now b2).2 ∧
  chat_session_id (createNewSession uuid now b1).2 =
    chat_session_id (createNewSession uuid now b2).2.
Proof.
  intros Hw Hc. unfold createNewSession. rewrite <- Hw.
  destruct (window b1) eqn:Hw1; simpl; [|intuition congruence].
  rewrite !saveSession_window, !saveSession_chat_session_id.
  unfold setCurrentSession. rewrite <- Hw, Hw1. simpl. intuition congruence.
Qed.

Lemma sessionId_effect_view old w1 w2 :
  same_request_view w1 w2 →
  same_request_view (sessionId_effect old w1) (sessionId_effect old w2).
Proof.
  intros H. unfold sessionId_effect.
  assert (Hs : sessionId (ui w1) = sessionId (ui w2)) by apply H.
  rewrite <- Hs. repeat case_bool_decide; [done|done|].
  unfold loadHistory. view_done.
Qed.

Lemma handle_view e w1 w2 :
  same_request_view w1 w2 →
  same_request_view (handle e w1) (handle e w2).
Proof.
  intros H.
  destruct H as (Hs & Hi & Ht & Hw & Hc & Hf & Ho).
  destruct e; simpl.
  - unfold mount. rewrite (getCurrentSession_view _ _ Hw Hc).
    destruct (createNewSession_view uuid now _ _ Hw Hc) as (H1 & H2 & H3).
    case_bool_decide.
    + destruct (createNewSession uuid now (browser w1)),
               (createNewSession uuid now (browser w2)). view_done.
    + view_done.
  - unfold handleNewChat.
    destruct (createNewSession_view uuid now _ _ Hw Hc) as (H1 & H2 & H3).
    destruct (createNewSession uuid now (browser w1)),
             (createNewSession uuid now (browser w2)). view_done.
  - unfold handleSwitchSession. rewrite <- Hs.
    case_bool_decide; [view_done|].
    unfold same_request_view, setCurrentSession. simpl. rewrite <- Hw.
    destruct (window (browser w1)) eqn:Hw1; view_done.
  - view_done.
  - view_done.
  - view_done.
  - unfold sendMessage. rewrite <- Hs, <- Hi, <- Ht.
    destruct (_ || _); [view_done|].
    destruct (bool_decide (length (messages (ui w1)) ≤ 1)%nat),
             (bool_decide (length (messages (ui w2)) ≤ 1)%nat); view_done.
  - rewrite <- Hf. case_bool_decide; [|view_done].
    destruct r; view_done.
  - rewrite <- Hf. case_bool_decide; [|view_done].
    unfold loadHistory_settled.
    destruct r as [|[] [[|m ms]|]]; try view_done.
    destruct (firstUserMsg (m :: ms)); view_done.
Qed.

Lemma step_view e w1 w2 :
  same_request_view w1 w2 →
  same_request_view (step w1 e) (step w2 e).
Proof.
  intros H. unfold step.
  assert (Hs : sessionId (ui w1) = sessionId (ui w2)) by apply H.
  rewrite <- Hs. by apply sessionId_effect_view, handle_view.
Qed.

(** The requests a run issues do not depend on the messages on display,
    nor on anything else outside the request view. *)
Lemma run_view evs w1 w2 :
  same_request_view w1 w2 →
  same_request_view (run w1 evs) (run w2 evs).
Proof.
  revert w1 w2. induction evs as [|e evs IH]; intros w1 w2 H; [done|].
  apply (IH (step w1 e) (step w2 e)). by apply step_view.
Qed.

Lemma same_request_view_setMessages ms w :
  same_request_view (with_ui (setMessages (const ms)) w) w.
Proof. by unfold same_request_view. Qed.

(** C6. A history request is in flight and settles with a failure
    (transport error or a status that is not [ok]) or without messages.
    The message list then is exactly the one welcome message, of role
    [model]; the error banner is what it was; the step issues no request
    and writes nothing to the storage. The welcome message never reaches
    the server: a send carries only the session id and the trimmed input,
    and the requests of every later run are the same whatever the
    message list holds. *)
Theorem loadHistory_seeds_welcome w sid r now :
  GET sid ∈ inflight w →
  no_history r = true →
  let w' := step w (HistorySettled sid r now) in
  messages (ui w') = [welcome] ∧
  role welcome = model ∧
  error (ui w') = error (ui w) ∧
  outbox w' = outbox w ∧
  browser w' = browser w ∧
  (∀ now', outbox (step w' (Submit now')) = outbox w' ∨
           outbox (step w' (Submit now')) =
             outbox w' ++ [POST (sessionId (ui w')) (trim (input (ui w')))]) ∧
  (∀ evs ms, outbox (run (with_ui (setMessages (const ms)) w') evs) =
             outbox (run w' evs)).
Proof.
  intros Hin Hr w'.
  assert (Hw' : w' = with_ui (setIsLoadingHistory false)
                       (with_ui (setMessages (const [welcome]))
                          (settled (GET sid) w))).
  { unfold w'. rewrite step_HistorySettled by done.
    by apply loadHistory_settled_no_history. }
  split; [by rewrite Hw'|]. split; [done|].
  split; [by rewrite Hw'|]. split; [by rewrite Hw'|].
  split; [by rewrite Hw'|]. split.
  - intros now'. rewrite step_Submit.
    unfold sendMessage. destruct (_ || _); [by left|].
    right. by destruct (bool_decide _).
  - intros evs ms.
    apply (run_view evs), same_request_view_setMessages.
Qed.

End RequestView.

(** * The properties on concrete runs *)

Section Runs.

(** C1, as first stated, fails. The send of "hello" was issued in session
    [A]; the user is now on [B], whose history is on display; the reply
    arrives and is appended to the history of [B]. *)
Lemma stale_reply_lands_in_other_session :
  sessionId (ui switched_to_B_while_sending) = "B" ∧
  POST "A" "hello" ∈ inflight switched_to_B_while_sending ∧
  messages (ui switched_to_B_while_sending) = history_B ∧
  messages (ui (step switched_to_B_while_sending
                  (ExchangeSettled "A" "hello" (Ok "reply for A")))) =
    history_B ++ [{| role := model; text := "reply for A" |}] ∧
  messages (ui (step switched_to_B_while_sending
                  (ExchangeSettled "A" "hello" (Ok "reply for A")))) ≠
    messages (ui switched_to_B_while_sending).
Proof.
  split; [reflexivity|]. split; [compute_done|]. split; [reflexivity|].
  split; [reflexivity|]. vm_compute. discriminate.
Qed.

(** C2, as first stated, fails. The active session is [A] and its history
    is on display; the load issued for [B] during a short visit settles
    late and replaces the list with the history of [B]. *)
Lemma stale_history_replaces_display :
  sessionId (ui back_on_A_while_B_loads) = "A" ∧
  GET "B" ∈ inflight back_on_A_while_B_loads ∧
  messages (ui back_on_A_while_B_loads) = history_A ∧
  messages (ui (step back_on_A_while_B_loads
                  (HistorySettled "B" (HistoryResponse true (Some history_B)) 35))) =
    history_B ∧
  messages (ui (step back_on_A_while_B_loads
                  (HistorySettled "B" (HistoryResponse true (Some history_B)) 35))) ≠
    messages (ui back_on_A_while_B_loads).
Proof.
  split; [reflexivity|]. split; [compute_done|]. split; [reflexivity|].
  split; [reflexivity|]. vm_compute. discriminate.
Qed.

(** C5, as first stated, fails. After a failed send the banner shows the
    error; pressing send with an empty input does not pass the guard, yet
    the banner is cleared. *)
Lemma blocked_send_clears_error :
  ¬ can_send after_failed_send ∧
  error (ui after_failed_send) = "Request failed." ∧
  error (ui (step after_failed_send (Submit 40))) = "" ∧
  step after_failed_send (Submit 40) ≠ after_failed_send.
Proof.
  split; [intros [H _]; by apply H|]. split; [reflexivity|].
  split; [reflexivity|]. vm_compute. discriminate.
Qed.

Lemma sendMessage_reply_appended_after_switch_witness :
  POST "A" "hello" ∈ inflight sending_hello ∧
  messages (ui (step (step sending_hello (SwitchSession "B"))
                  (ExchangeSettled "A" "hello" (Ok "reply for A")))) =
    messages (ui (step sending_hello (SwitchSession "B")))
      ++ [{| role := model; text := "reply for A" |}].
Proof.
  assert (Hin : POST "A" "hello" ∈ inflight sending_hello) by compute_done.
  split; [exact Hin|].
  destruct (sendMessage_reply_appended_after_switch
              sending_hello "A" "hello" "B" "reply for A" Hin)
    as (_ & _ & H & _).
  exact H.
Defined.

Lemma loadHistory_settles_unconditionally_witness :
  GET "B" ∈ inflight back_on_A_while_B_loads ∧
  messages (ui (step back_on_A_while_B_loads
                  (HistorySettled "B" (HistoryResponse true (Some history_B)) 35))) =
    history_view (HistoryResponse true (Some history_B)).
Proof.
  assert (Hin : GET "B" ∈ inflight back_on_A_while_B_loads) by compute_done.
  split; [exact Hin|].
  destruct (loadHistory_settles_unconditionally back_on_A_while_B_loads "B"
              (HistoryResponse true (Some history_B)) 35 Hin) as (H & _).
  exact H.
Defined.

Lemma can_send_typed_hello : can_send typed_hello.
Proof. repeat split; vm_compute; discriminate. Defined.

Lemma sendMessage_optimistic_append_witness :
  can_send typed_hello ∧
  last (messages (ui (step typed_hello (Submit 40)))) =
    Some {| role := user; text := "hello" |}.
Proof.
  split; [exact can_send_typed_hello|].
  destruct (sendMessage_optimistic_append typed_hello 40 can_send_typed_hello)
    as (_ & H & _).
  exact H.
Defined.

Lemma sendMessage_blocked_only_clears_error_witness :
  ¬ can_send after_failed_send ∧
  step after_failed_send (Submit 40) = with_ui (setError "") after_failed_send.
Proof.
  assert (Hno : ¬ can_send after_failed_send).
  { intros [H _]. apply H. reflexivity. }
  split; [exact Hno|].
  destruct (sendMessage_blocked_only_clears_error after_failed_send 40 Hno)
    as (H & _).
  exact H.
Defined.

Lemma loadHistory_seeds_welcome_witness :
  GET "A" ∈ inflight just_mounted ∧
  no_history HistoryNetworkError = true ∧
  messages (ui (step just_mounted (HistorySettled "A" HistoryNetworkError 31))) =
    [welcome].
Proof.
  assert (Hin : GET "A" ∈ inflight just_mounted) by compute_done.
  split; [exact Hin|]. split; [reflexivity|].
  destruct (loadHistory_seeds_welcome just_mounted "A" HistoryNetworkError 31
              Hin eq_refl) as (H & _).
  exact H.
Defined.

Lemma saveSession_same_preview_noop_witness :
  find_session "A" (getAllSessions two_sessions) =
    Some (0, {| id := "A"; preview := "first thread"; timestamp := 10 |}) ∧
  saveSession "A" "" 50 two_sessions = two_sessions ∧
  saveSession "A" "first thread" 50 two_sessions = two_sessions.
Proof.
  assert (Hfind : find_session "A" (getAllSessions two_sessions) =
            Some (0, {| id := "A"; preview := "first thread"; timestamp := 10 |}))
    by reflexivity.
  split; [exact Hfind|]. split.
  - destruct (saveSession_same_preview_noop two_sessions "A" "" 50 _ _
                Hfind (or_introl eq_refl)) as (H & _).
    exact H.
  - destruct (saveSession_same_preview_noop two_sessions "A" "first thread" 50 _ _
                Hfind (or_intror eq_refl)) as (H & _).
    exact H.
Defined.

Lemma sendMessage_first_exchange_preview_witness :
  window (browser new_chat_typed) = true ∧
  can_send new_chat_typed ∧
  String.length (trim (input (ui new_chat_typed))) = 120 ∧
  ∃ i e,
    find_session "C" (getAllSessions (browser (step new_chat_typed (Submit 33)))) =
      Some (i, e) ∧
    preview e = "Please summarise the attached meeting notes for me".
Proof.
  assert (Hok : can_send new_chat_typed)
    by (repeat split; vm_compute; discriminate).
  split; [reflexivity|]. split; [exact Hok|]. split; [reflexivity|].
  destruct (sendMessage_first_exchange_preview new_chat_typed 33 eq_refl Hok)
    as (H & _).
  destruct H as (i & e & Hfind & Hpv & _).
  { vm_compute. lia. }
  exists i, e. split; [exact Hfind|exact Hpv].
Defined.

Lemma saveSession_differing_preview_frame_witness :
  find_session "B" (getAllSessions two_sessions) =
    Some (1, {| id := "B"; preview := "second thread"; timestamp := 20 |}) ∧
  "renamed" ≠ "" ∧
  "renamed" ≠ preview {| id := "B"; preview := "second thread"; timestamp := 20 |} ∧
  getAllSessions (saveSession "B" "renamed" 50 two_sessions) !! 1 =
    Some {| id := "B"; preview := "renamed"; timestamp := 50 |} ∧
  length (getAllSessions (saveSession "B" "renamed" 50 two_sessions)) =
    length (getAllSessions two_sessions).
Proof.
  assert (Hfind : find_session "B" (getAllSessions two_sessions) =
            Some (1, {| id := "B"; preview := "second thread"; timestamp := 20 |}))
    by reflexivity.
  assert (Hne : "renamed" ≠ "") by discriminate.
  assert (Hdiff : "renamed" ≠
            preview {| id := "B"; preview := "second thread"; timestamp := 20 |})
    by discriminate.
  split; [exact Hfind|]. split; [exact Hne|]. split; [exact Hdiff|].
  destruct (saveSession_differing_preview_frame two_sessions "B" "renamed" 50 _ _
              Hfind Hne Hdiff) as (H1 & _ & H2 & _).
  split; [exact H1|exact H2].
Defined.

End Runs.

(** * Further properties of the session helpers *)

Section DirectoryMore.

Implicit Types (b : Browser) (l : list Session) (sid pv : string) (now : Z).

Lemma saveSession_same sid pv now b i e :
  find_session sid (getAllSessions b) = Some (i, e) →
  pv = "" ∨ pv = preview e →
  saveSession sid pv now b = b.
Proof.
  intros Hfind Hpv. unfold saveSession. rewrite Hfind.
  destruct (window b); [|done].
  rewrite bool_decide_eq_false_2; [done|].
  intros [Hne Hdiff]. by destruct Hpv.
Qed.

Lemma saveSession_no_window sid pv now b :
  window b = false → saveSession sid pv now b = b.
Proof. intros Hw. unfold saveSession. by rewrite Hw. Qed.

Lemma getAllSessions_no_window b : window b = false → getAllSessions b = [].
Proof. unfold getAllSessions. by intros ->. Qed.

Lemma find_session_here sid pv now l :
  find_session sid ({| id := sid; preview := pv; timestamp := now |} :: l) =
    Some (0, {| id := sid; preview := pv; timestamp := now |}).
Proof. unfold find_session. simpl. by rewrite decide_True. Qed.

Lemma find_session_skip sid s l :
  id s ≠ sid →
  snd <$> find_session sid (s :: l) = snd <$> find_session sid l.
Proof.
  intros Hne. unfold find_session. simpl. rewrite decide_False by done.
  by destruct (list_find _ l) as [[j x]|].
Qed.

Lemma find_session_insert_other sid l i e e' :
  l !! i = Some e →
  id e ≠ sid →
  id e' ≠ sid →
  find_session sid (<[i := e']> l) = find_session sid l.
Proof.
  unfold find_session. revert i. induction l as [|s l IH]; intros i Hi He He'; [done|].
  destruct i as [|i]; simpl in *.
  - injection Hi as ->. by rewrite !decide_False.
  - destruct (decide (id s = sid)); [done|]. by rewrite IH.
Qed.

(** The ids of the directory after [saveSession]: the id is put in front
    when it is unknown, and nothing else changes. *)
Lemma saveSession_ids sid pv now b :
  id <$> getAllSessions (saveSession sid pv now b) =
    if bool_decide (window b = true ∧ sid ∉ id <$> getAllSessions b)
    then sid :: (id <$> getAllSessions b)
    else id <$> getAllSessions b.
Proof.
  destruct (window b) eqn:Hw.
  - destruct (find_session sid (getAllSessions b)) as [[i e]|] eqn:Hfind.
    + rewrite bool_decide_eq_false_2.
      2: { intros [_ Hnew]. apply find_session_None in Hnew. congruence. }
      destruct (decide (pv ≠ "" ∧ pv ≠ preview e)) as [[Hne Hdiff]|Hsame].
      * rewrite (saveSession_known_differing sid pv now b i e) by done.
        apply find_session_Some in Hfind as (Hi & Hid & _).
        rewrite list_fmap_insert. apply list_insert_id.
        by rewrite list_lookup_fmap, Hi, <- Hid.
      * rewrite (saveSession_same sid pv now b i e); [done|done|].
        destruct (decide (pv = "")); [by left|right].
        destruct (decide (pv = preview e)); [done|]. by destruct Hsame.
    + apply find_session_None in Hfind.
      rewrite bool_decide_eq_true_2 by done.
      by rewrite saveSession_unknown.
  - rewrite bool_decide_eq_false_2 by (by intros [? _]).
    unfold saveSession. by rewrite Hw.
Qed.

(** X1. Calling [saveSession] a second time with the same id and preview
    changes nothing, whatever the clock shows: the first call leaves the
    entry in the state the second one would produce, so the timestamp is
    not bumped again. *)
Theorem saveSession_idempotent sid pv now now' b :
  saveSession sid pv now' (saveSession sid pv now b) = saveSession sid pv now b.
Proof.
  destruct (window b) eqn:Hw.
  2: { rewrite (saveSession_no_window sid pv now b) by done.
       by rewrite saveSession_no_window. }
  destruct (find_session sid (getAllSessions b)) as [[i e]|] eqn:Hfind.
  - destruct (decide (pv ≠ "" ∧ pv ≠ preview e)) as [[Hne Hdiff]|Hsame].
    + apply (saveSession_same sid pv now' _ i
               {| id := sid; preview := pv; timestamp := now |}); [|by right].
      rewrite (saveSession_known_differing sid pv now b i e) by done.
      by eapply find_session_insert.
    + assert (Hnoop : saveSession sid pv now b = b).
      { apply (saveSession_same sid pv now b i e); [done|].
        destruct (decide (pv = "")); [by left|right].
        destruct (decide (pv = preview e)); [done|]. by destruct Hsame. }
      rewrite Hnoop.
      apply (saveSession_same sid pv now' b i e); [done|].
      destruct (decide (pv = "")); [by left|right].
      destruct (decide (pv = preview e)); [done|]. by destruct Hsame.
  - apply find_session_None in Hfind.
    apply (saveSession_same sid pv now' _ 0
             {| id := sid; preview := or_else pv "New conversation"; timestamp := now |}).
    + rewrite saveSession_unknown by done. apply find_session_here.
    + simpl. unfold or_else. case_bool_decide; [by left|by right].
Qed.

(** X2. [saveSession] and [createNewSession] keep the ids of the directory
    pairwise distinct: a directory without duplicate ids never gets one,
    even when the generated identifier is already registered. *)
Theorem saveSession_keeps_ids_unique sid pv now uuid b :
  unique_ids b →
  unique_ids (saveSession sid pv now b) ∧
  unique_ids (createNewSession uuid now b).2.
Proof.
  intros Hnd.
  assert (Hsave : ∀ sid' pv' b', unique_ids b' → unique_ids (saveSession sid' pv' now b')).
  { intros sid' pv' b' Hb'. unfold unique_ids in *. rewrite saveSession_ids.
    case_bool_decide as Hc; [|done].
    destruct Hc as [_ Hnew]. by apply NoDup_cons. }
  split; [by apply Hsave|].
  unfold createNewSession. destruct (window b) eqn:Hw; [|done]. simpl.
  apply Hsave. unfold unique_ids, setCurrentSession, getAllSessions in *.
  rewrite Hw in *. simpl. by rewrite Hw.
Qed.

(** X3. In a browser, [saveSession] registers the id and never removes or
    reorders an entry: afterwards the id is in the directory; when the id
    was known the sequence of ids is exactly the previous one, and when it
    was unknown it is the previous one with the id put in front. On the
    server (no [window]) the call does nothing. *)
Theorem saveSession_registers sid pv now b :
  (window b = true →
   sid ∈ id <$> getAllSessions (saveSession sid pv now b)) ∧
  (sid ∈ id <$> getAllSessions b →
   id <$> getAllSessions (saveSession sid pv now b) = id <$> getAllSessions b) ∧
  (window b = true →
   sid ∉ id <$> getAllSessions b →
   id <$> getAllSessions (saveSession sid pv now b) = sid :: (id <$> getAllSessions b)) ∧
  (window b = false → saveSession sid pv now b = b).
Proof.
  split; [|split; [|split]].
  - intros Hw. rewrite saveSession_ids. case_bool_decide as Hc; [left|].
    destruct (decide (sid ∈ id <$> getAllSessions b)); [done|].
    destruct Hc. by split.
  - intros Hin. rewrite saveSession_ids.
    rewrite bool_decide_eq_false_2; [done|]. by intros [_ ?].
  - intros Hw Hnew. rewrite saveSession_ids.
    by rewrite bool_decide_eq_true_2.
  - intros Hw. unfold saveSession. by rewrite Hw.
Qed.

(** X4. [saveSession] for one id leaves the entry of every other id as it
    was: what [find] returns for another id has the same preview and the
    same timestamp before and after the call. *)
Theorem saveSession_other_entries_untouched sid sid' pv now b :
  sid' ≠ sid →
  snd <$> find_session sid' (getAllSessions (saveSession sid pv now b)) =
    snd <$> find_session sid' (getAllSessions b).
Proof.
  intros Hne. destruct (window b) eqn:Hw.
  2: { by rewrite saveSession_no_window. }
  destruct (find_session sid (getAllSessions b)) as [[i e]|] eqn:Hfind.
  - destruct (decide (pv ≠ "" ∧ pv ≠ preview e)) as [[Hn Hdiff]|Hsame].
    + rewrite (saveSession_known_differing sid pv now b i e) by done.
      apply find_session_Some in Hfind as (Hi & Hid & _).
      rewrite (find_session_insert_other sid' _ i e); [done|done| |]; simpl; congruence.
    + rewrite (saveSession_same sid pv now b i e); [done|done|].
      destruct (decide (pv = "")); [by left|right].
      destruct (decide (pv = preview e)); [done|]. by destruct Hsame.
  - apply find_session_None in Hfind.
    rewrite saveSession_unknown by done.
    by apply find_session_skip.
Qed.

(** X5. When the stored directory is missing or is not valid JSON, the
    next [saveSession] in a browser writes a directory that holds exactly
    the one entry of the call, with the placeholder preview when none is
    given: unreadable data is replaced, never reported. *)
Theorem saveSession_replaces_unreadable_directory sid pv now b :
  window b = true →
  chat_sessions b = NoItem ∨ chat_sessions b = NotJSON →
  getAllSessions b = [] ∧
  chat_sessions (saveSession sid pv now b) =
    SessionsArray
      [ {| id := sid; preview := or_else pv "New conversation"; timestamp := now |} ] ∧
  chat_session_id (saveSession sid pv now b) = chat_session_id b.
Proof.
  intros Hw Hbad.
  assert (Hl : getAllSessions b = []).
  { unfold getAllSessions. rewrite Hw. by destruct Hbad as [-> | ->]. }
  split; [done|]. split; [|apply saveSession_chat_session_id].
  unfold saveSession. by rewrite Hw, Hl.
Qed.

(** X6. The current-session key round-trips in a browser: what
    [setCurrentSession] stores is what [getCurrentSession] returns, the
    directory is not touched, and after [createNewSession] the current
    session is the identifier the call returned. *)
Theorem current_session_round_trip sid uuid now b :
  window b = true →
  getCurrentSession (setCurrentSession sid b) = sid ∧
  getAllSessions (setCurrentSession sid b) = getAllSessions b ∧
  getCurrentSession (createNewSession uuid now b).2 = (createNewSession uuid now b).1.
Proof.
  intros Hw.
  assert (Hget : ∀ v, getCurrentSession (setCurrentSession v b) = v).
  { intros v. unfold getCurrentSession, setCurrentSession. rewrite Hw. simpl.
    rewrite Hw. unfold or_else. by case_bool_decide. }
  split; [apply Hget|]. split.
  - unfold setCurrentSession, getAllSessions. rewrite Hw. simpl. by rewrite Hw.
  - unfold createNewSession. rewrite Hw. simpl.
    specialize (Hget uuid). unfold getCurrentSession in *.
    rewrite saveSession_window, saveSession_chat_session_id. done.
Qed.

End DirectoryMore.

(** * Further properties of the component *)

Section Frames.

Implicit Types (w : World) (b : Browser) (now : Z).

Lemma run_invariant (P : World → Prop) :
  (∀ w e, P w → P (step w e)) → ∀ evs w, P w → P (run w evs).
Proof.
  intros Hstep evs. induction evs as [|e evs IH]; intros w Hw; [done|].
  apply (IH (step w e)). by apply Hstep.
Qed.

Lemma run_cons w e evs : run w (e :: evs) = run (step w e) evs.
Proof. done. Qed.

(** The second effect either does not run, or starts the load of the new,
    non-empty session id. *)
Lemma sessionId_effect_cases old w :
  sessionId_effect old w = w ∨
  (sessionId (ui w) ≠ "" ∧ sessionId (ui w) ≠ old ∧
   sessionId_effect old w = loadHistory (sessionId (ui w)) w).
Proof.
  unfold sessionId_effect. repeat case_bool_decide; [by left|by left|by right].
Qed.

Lemma getAllSessions_setCurrentSession sid b :
  getAllSessions (setCurrentSession sid b) = getAllSessions b.
Proof.
  unfold setCurrentSession, getAllSessions.
  destruct (window b) eqn:Hw; simpl; by rewrite Hw.
Qed.

Lemma createNewSession_browser uuid now b :
  (createNewSession uuid now b).2 =
    if window b then saveSession uuid "" now (setCurrentSession uuid b) else b.
Proof. unfold createNewSession. by destruct (window b). Qed.

Lemma createNewSession_id uuid now b :
  (createNewSession uuid now b).1 = if window b then uuid else "".
Proof. unfold createNewSession. by destruct (window b). Qed.

(** [mount] as a function of the storage alone. *)
Lemma mount_unfold uuid now w :
  mount uuid now w =
    let b' :=
      if bool_decide (getCurrentSession (browser w) = "")
      then (createNewSession uuid now (browser w)).2
      else saveSession (getCurrentSession (browser w)) "" now (browser w) in
    let currentId :=
      if bool_decide (getCurrentSession (browser w) = "")
      then (createNewSession uuid now (browser w)).1
      else getCurrentSession (browser w) in
    with_ui (setSessions (getAllSessions b'))
      (with_ui (setSessionId currentId) (with_browser (const b') w)).
Proof.
  unfold mount. case_bool_decide; [|done].
  by destruct (createNewSession uuid now (browser w)).
Qed.

Lemma handleNewChat_unfold uuid now w :
  handleNewChat uuid now w =
    let b' := (createNewSession uuid now (browser w)).2 in
    let newId := (createNewSession uuid now (browser w)).1 in
    with_ui (setError "")
      (with_ui (setMessages (const []))
         (with_ui (setSessions (getAllSessions b'))
            (with_ui (setSessionId newId) (with_browser (const b') w)))).
Proof.
  unfold handleNewChat. by destruct (createNewSession uuid now (browser w)).
Qed.

(** What [loadHistory_settled] writes besides the message list. *)
Lemma loadHistory_settled_unfold sid r now w :
  loadHistory_settled sid r now w =
    let b' :=
      match firstUserMsg (history_view r) with
      | Some fm =>
          if no_history r then browser w
          else saveSession sid (slice0 50 (text fm)) now (browser w)
      | None => browser w
      end in
    let ss :=
      match firstUserMsg (history_view r) with
      | Some fm => if no_history r then sessions (ui w) else getAllSessions b'
      | None => sessions (ui w)
      end in
    with_ui (setIsLoadingHistory false)
      (with_ui (setSessions ss)
         (with_browser (const b')
            (with_ui (setMessages (const (history_view r))) w))).
Proof.
  destruct w as [[] ? ? ?].
  destruct r as [|[] [[|m ms]|]]; try done.
  unfold loadHistory_settled, history_view.
  destruct (firstUserMsg (m :: ms)); done.
Qed.

(** The storage after [sendMessage]. *)
Lemma sendMessage_browser now w :
  browser (sendMessage now w) = browser w ∨
  browser (sendMessage now w) =
    saveSession (sessionId (ui w)) (slice0 50 (trim (input (ui w)))) now (browser w).
Proof.
  unfold sendMessage. destruct (_ || _); [by left|].
  destruct (bool_decide _); [by right|by left].
Qed.

Lemma sendMessage_sessions now w :
  sessions (ui w) = getAllSessions (browser w) →
  sessions (ui (sendMessage now w)) = getAllSessions (browser (sendMessage now w)).
Proof.
  intros H. unfold sendMessage. destruct (_ || _); [done|].
  by destruct (bool_decide _).
Qed.

End Frames.

Section StringsMore.

Lemma trimEnd_idempotent s : trimEnd (trimEnd s) = trimEnd s.
Proof.
  induction s as [|c s IH]; [done|]. simpl.
  destruct (trimEnd s) as [|d t] eqn:Ht.
  - destruct (is_white_space c) eqn:Hc; [done|]. simpl. by rewrite Hc.
  - simpl in *. by rewrite IH.
Qed.

Lemma trimStart_clean s :
  match s with
  | EmptyString => True
  | String c _ => is_white_space c = false
  end →
  trimStart s = s.
Proof. destruct s as [|c s]; [done|]. simpl. by intros ->. Qed.

Lemma trimStart_is_clean s :
  match trimStart s with
  | EmptyString => True
  | String c _ => is_white_space c = false
  end.
Proof.
  induction s as [|c s IH]; [done|]. simpl.
  destruct (is_white_space c) eqn:Hc; [done|]. done.
Qed.

Lemma trimEnd_keeps_clean s :
  match s with
  | EmptyString => True
  | String c _ => is_white_space c = false
  end →
  match trimEnd s with
  | EmptyString => True
  | String c _ => is_white_space c = false
  end.
Proof.
  destruct s as [|c s]; [done|]. simpl. intros Hc.
  destruct (trimEnd s); by rewrite ?Hc.
Qed.

(** [trim] leaves a trimmed string as it is. *)
Lemma trim_idempotent s : trim (trim s) = trim s.
Proof.
  unfold trim.
  rewrite (trimStart_clean (trimEnd (trimStart s))).
  - apply trimEnd_idempotent.
  - apply trimEnd_keeps_clean, trimStart_is_clean.
Qed.

End StringsMore.

Section Invariants.

Implicit Types (w : World) (b : Browser) (now : Z) (l : list Request).

Lemma filter_POST_settle_GET sid l :
  filter (λ q, is_POST q = true) (settle (GET sid) l) =
    filter (λ q, is_POST q = true) l.
Proof.
  induction l as [|q l IH]; [done|]. simpl. case_bool_decide as Hq.
  - subst q. by rewrite filter_cons_False.
  - rewrite !filter_cons. by rewrite IH.
Qed.

Lemma length_filter_POST_settle sid m l :
  POST sid m ∈ l →
  S (length (filter (λ q, is_POST q = true) (settle (POST sid m) l))) =
    length (filter (λ q, is_POST q = true) l).
Proof.
  induction l as [|q l IH]; [by intros ?%elem_of_nil|].
  intros Hin. simpl. case_bool_decide as Hq.
  - subst q. by rewrite filter_cons_True.
  - apply elem_of_cons in Hin as [Heq|Hin]; [congruence|].
    rewrite !filter_cons. destruct (decide (is_POST q = true)); simpl;
      by rewrite IH.
Qed.

Lemma filter_POST_snoc_GET sid l :
  filter (λ q, is_POST q = true) (l ++ [GET sid]) =
    filter (λ q, is_POST q = true) l.
Proof. rewrite filter_app. simpl. by rewrite app_nil_r. Qed.

(** What a handler adds to the log of requests: nothing, unless it is a
    send that passes the guard. *)
Lemma handle_outbox e w :
  outbox (handle e w) = outbox w ∨
  (∃ now, e = Submit now ∧ can_send w ∧
          outbox (handle e w) =
            outbox w ++ [POST (sessionId (ui w)) (trim (input (ui w)))]).
Proof.
  destruct e; simpl.
  - left. by rewrite mount_unfold.
  - left. by rewrite handleNewChat_unfold.
  - left. unfold handleSwitchSession. by case_bool_decide.
  - by left.
  - by left.
  - by left.
  - unfold sendMessage. destruct (_ || _) eqn:Hg; [by left|].
    right. exists now. apply guard_passes in Hg.
    split; [done|]. split; [done|]. by destruct (bool_decide _).
  - left. case_bool_decide; [|done]. by destruct r.
  - left. case_bool_decide; [|done]. by rewrite loadHistory_settled_unfold.
Qed.

Lemma handle_isTyping e w :
  settles_exchange e = false →
  isTyping (ui w) = true →
  isTyping (ui (handle e w)) = true.
Proof.
  intros He Ht. destruct e; simpl; try done.
  - by rewrite mount_unfold.
  - by rewrite handleNewChat_unfold.
  - unfold handleSwitchSession. by case_bool_decide.
  - rewrite sendMessage_blocked; [done|]. intros (_ & Hf & _). congruence.
  - case_bool_decide; [|done]. by rewrite loadHistory_settled_unfold.
Qed.

Lemma sessionId_effect_frame old w :
  ui (sessionId_effect old w) = ui w ∨
  ui (sessionId_effect old w) = setIsLoadingHistory true (ui w).
Proof.
  destruct (sessionId_effect_cases old w) as [->|(_ & _ & ->)]; [by left|by right].
Qed.

Lemma sessionId_effect_browser old w :
  browser (sessionId_effect old w) = browser w.
Proof. by destruct (sessionId_effect_cases old w) as [->|(_ & _ & ->)]. Qed.

Lemma sessionId_effect_inflight old w :
  filter (λ q, is_POST q = true) (inflight (sessionId_effect old w)) =
    filter (λ q, is_POST q = true) (inflight w) ∧
  filter (λ q, is_POST q = true) (outbox (sessionId_effect old w)) =
    filter (λ q, is_POST q = true) (outbox w).
Proof.
  destruct (sessionId_effect_cases old w) as [->|(_ & _ & ->)]; [done|].
  simpl. by rewrite !filter_POST_snoc_GET.
Qed.

Lemma handle_single_send e w :
  length (filter (λ q, is_POST q = true) (inflight w)) =
    (if isTyping (ui w) then 1 else 0) →
  length (filter (λ q, is_POST q = true) (inflight (handle e w))) =
    (if isTyping (ui (handle e w)) then 1 else 0).
Proof.
  intros Hinv. destruct e; simpl; try done.
  - by rewrite mount_unfold.
  - by rewrite handleNewChat_unfold.
  - unfold handleSwitchSession. by case_bool_decide.
  - unfold sendMessage. destruct (_ || _) eqn:Hg; [done|].
    apply guard_passes in Hg as (_ & Ht & _). rewrite Ht in Hinv.
    destruct (bool_decide _); simpl; rewrite filter_app, length_app, Hinv; done.
  - case_bool_decide as Hin; [|done].
    apply length_filter_POST_settle in Hin.
    destruct (isTyping (ui w)); [|lia].
    assert (length (filter (λ q, is_POST q = true)
                      (settle (POST sid message) (inflight w))) = 0) by lia.
    by destruct r.
  - case_bool_decide; [|done]. rewrite loadHistory_settled_unfold. simpl.
    by rewrite filter_POST_settle_GET.
Qed.

(** X7. At most one send is in flight, in every state the component can
    reach from a freshly loaded page: the number of [POST] requests
    awaiting their response is one while [isTyping] is set and zero
    otherwise. *)
Theorem at_most_one_send_in_flight b evs :
  length (filter (λ q, is_POST q = true) (inflight (run (initial b) evs))) =
    if isTyping (ui (run (initial b) evs)) then 1 else 0.
Proof.
  apply (run_invariant
           (λ w, length (filter (λ q, is_POST q = true) (inflight w)) =
                   if isTyping (ui w) then 1 else 0)); [|done].
  intros w e Hinv. unfold step.
  destruct (sessionId_effect_inflight (sessionId (ui w)) (handle e w)) as [-> _].
  rewrite (handle_single_send e w Hinv).
  by destruct (sessionId_effect_frame (sessionId (ui w)) (handle e w)) as [-> | ->].
Qed.

(** X13. A send blocks every further send until it settles. While
    [isTyping] is set, no sequence of events without the response of the
    exchange (typing, pressing send, switching session, starting a new
    chat, histories arriving) issues a [POST], and the flag stays set;
    this holds across sessions, since the flag is not per session. *)
Theorem send_blocked_until_settled w evs :
  isTyping (ui w) = true →
  Forall (λ e, settles_exchange e = false) evs →
  isTyping (ui (run w evs)) = true ∧
  filter (λ q, is_POST q = true) (outbox (run w evs)) =
    filter (λ q, is_POST q = true) (outbox w).
Proof.
  revert w. induction evs as [|e evs IH]; intros w Ht Hevs; [done|].
  apply Forall_cons in Hevs as [He Hevs]. rewrite run_cons.
  assert (Ht' : isTyping (ui (step w e)) = true).
  { unfold step.
    destruct (sessionId_effect_frame (sessionId (ui w)) (handle e w)) as [-> | ->];
      by apply handle_isTyping. }
  destruct (IH (step w e) Ht' Hevs) as [Hty Hout].
  split; [done|]. rewrite Hout. unfold step.
  destruct (sessionId_effect_inflight (sessionId (ui w)) (handle e w)) as [_ ->].
  destruct (handle_outbox e w) as [->|(now & _ & (_ & Hf & _) & _)]; [done|].
  congruence.
Qed.

(** X10. Every request the component issues, in any run from a freshly
    loaded page, is well formed: a history fetch carries a non-empty
    session id, and a send carries a non-empty session id and a message
    that is not empty and has no white space around it. *)
Theorem requests_well_formed b evs :
  Forall well_formed (outbox (run (initial b) evs)).
Proof.
  apply (run_invariant (λ w, Forall well_formed (outbox w))); [|by constructor].
  intros w e Hinv. unfold step.
  assert (Hh : Forall well_formed (outbox (handle e w))).
  { destruct (handle_outbox e w) as [->|(now & _ & (Hm & _ & Hs) & ->)]; [done|].
    apply Forall_app. split; [done|]. apply Forall_singleton.
    simpl. split; [done|]. split; [done|]. apply trim_idempotent. }
  destruct (sessionId_effect_cases (sessionId (ui w)) (handle e w))
    as [->|(Hne & _ & ->)]; [done|].
  simpl. apply Forall_app. split; [done|]. by apply Forall_singleton.
Qed.

End Invariants.

Section StorageInvariants.

Implicit Types (w : World) (b : Browser) (now : Z).

Lemma setCurrentSession_window sid b :
  window (setCurrentSession sid b) = window b.
Proof. unfold setCurrentSession. by destruct (window b) eqn:Hw. Qed.

Lemma setCurrentSession_chat_session_id sid b :
  window b = true → chat_session_id (setCurrentSession sid b) = Some sid.
Proof. unfold setCurrentSession. by intros ->. Qed.

Lemma getCurrentSession_stored b v :
  getCurrentSession b = v → v ≠ "" → chat_session_id b = Some v.
Proof.
  unfold getCurrentSession. destruct (window b); [|congruence].
  destruct (chat_session_id b) as [v0|]; [|congruence].
  unfold or_else. case_bool_decide; congruence.
Qed.

Lemma createNewSession_current uuid now b :
  window b = true →
  (createNewSession uuid now b).1 = uuid ∧
  window (createNewSession uuid now b).2 = true ∧
  chat_session_id (createNewSession uuid now b).2 = Some uuid.
Proof.
  intros Hw. rewrite createNewSession_id, createNewSession_browser, Hw.
  rewrite saveSession_window, saveSession_chat_session_id.
  rewrite setCurrentSession_window, setCurrentSession_chat_session_id; done.
Qed.

Lemma handle_window e w : window (browser (handle e w)) = window (browser w).
Proof.
  destruct e; simpl; try done.
  - rewrite mount_unfold. simpl. case_bool_decide.
    + rewrite createNewSession_browser. destruct (window (browser w)) eqn:Hw; [|done].
      by rewrite saveSession_window, setCurrentSession_window.
    + apply saveSession_window.
  - rewrite handleNewChat_unfold. simpl.
    rewrite createNewSession_browser. destruct (window (browser w)) eqn:Hw; [|done].
    by rewrite saveSession_window, setCurrentSession_window.
  - unfold handleSwitchSession. case_bool_decide; [done|]. simpl.
    apply setCurrentSession_window.
  - destruct (sendMessage_browser now w) as [-> | ->]; [done|].
    apply saveSession_window.
  - case_bool_decide; [|done]. by destruct r.
  - case_bool_decide; [|done]. rewrite loadHistory_settled_unfold. simpl.
    destruct (firstUserMsg _); [|done]. destruct (no_history r); [done|].
    apply saveSession_window.
Qed.

Lemma handle_pointer e w :
  window (browser w) = true →
  sessionId (ui w) = "" ∨ chat_session_id (browser w) = Some (sessionId (ui w)) →
  sessionId (ui (handle e w)) = "" ∨
  chat_session_id (browser (handle e w)) = Some (sessionId (ui (handle e w))).
Proof.
  intros Hw Hinv. destruct e; simpl; try done.
  - rewrite mount_unfold. simpl. case_bool_decide as Hcur.
    + right. by destruct (createNewSession_current uuid now _ Hw) as (-> & _ & ->).
    + right. rewrite saveSession_chat_session_id.
      by apply getCurrentSession_stored.
  - rewrite handleNewChat_unfold. simpl. right.
    by destruct (createNewSession_current uuid now _ Hw) as (-> & _ & ->).
  - unfold handleSwitchSession. case_bool_decide; [done|]. simpl. right.
    by apply setCurrentSession_chat_session_id.
  - rewrite sendMessage_sessionId.
    destruct (sendMessage_browser now w) as [-> | ->]; [done|].
    by rewrite saveSession_chat_session_id.
  - case_bool_decide; [|done]. by destruct r.
  - case_bool_decide; [|done]. rewrite loadHistory_settled_unfold. simpl.
    destruct (firstUserMsg _); [|done]. destruct (no_history r); [done|].
    by rewrite saveSession_chat_session_id.
Qed.

(** X8. In a browser, the session on display is the one stored as
    current: in every state reached from a freshly loaded page, either no
    session is set yet or the key [chat_session_id] holds the component's
    [sessionId], so a reload comes back to the session on display. *)
Theorem active_session_is_persisted b evs :
  window b = true →
  sessionId (ui (run (initial b) evs)) = "" ∨
  chat_session_id (browser (run (initial b) evs)) =
    Some (sessionId (ui (run (initial b) evs))).
Proof.
  intros Hw.
  cut (window (browser (run (initial b) evs)) = true ∧
       (sessionId (ui (run (initial b) evs)) = "" ∨
        chat_session_id (browser (run (initial b) evs)) =
          Some (sessionId (ui (run (initial b) evs))))); [by intros [_ ?]|].
  apply (run_invariant
           (λ w, window (browser w) = true ∧
                 (sessionId (ui w) = "" ∨
                  chat_session_id (browser w) = Some (sessionId (ui w)))));
    [|by split; [|left]].
  clear. intros w e [Hw Hinv]. unfold step.
  rewrite sessionId_effect_browser.
  split; [by rewrite handle_window|].
  destruct (sessionId_effect_frame (sessionId (ui w)) (handle e w)) as [-> | ->];
    by apply handle_pointer.
Qed.

Lemma handle_sessions e w :
  sessions (ui w) = getAllSessions (browser w) →
  sessions (ui (handle e w)) = getAllSessions (browser (handle e w)).
Proof.
  intros Hinv. destruct e; simpl; try done.
  - by rewrite mount_unfold.
  - by rewrite handleNewChat_unfold.
  - unfold handleSwitchSession. case_bool_decide; [done|]. simpl.
    by rewrite getAllSessions_setCurrentSession.
  - by apply sendMessage_sessions.
  - case_bool_decide; [|done]. by destruct r.
  - case_bool_decide; [|done]. rewrite loadHistory_settled_unfold. simpl.
    destruct (firstUserMsg _); [|done]. by destruct (no_history r).
Qed.

Lemma step_sessions e w :
  sessions (ui w) = getAllSessions (browser w) →
  sessions (ui (step w e)) = getAllSessions (browser (step w e)).
Proof.
  intros Hinv. unfold step. rewrite sessionId_effect_browser.
  destruct (sessionId_effect_frame (sessionId (ui w)) (handle e w)) as [-> | ->];
    by apply handle_sessions.
Qed.

Lemma step_Mount_sessions uuid now w :
  sessions (ui (step w (Mount uuid now))) =
    getAllSessions (browser (step w (Mount uuid now))).
Proof.
  unfold step. rewrite sessionId_effect_browser.
  destruct (sessionId_effect_frame (sessionId (ui w)) (handle (Mount uuid now) w))
    as [-> | ->]; simpl; by rewrite mount_unfold.
Qed.

(** X9. Once the component is mounted, the list of sessions in the
    sidebar is the persisted directory, after every event: each handler
    that writes the directory also refreshes the list. *)
Theorem sidebar_shows_directory b uuid now evs :
  sessions (ui (run (initial b) (Mount uuid now :: evs))) =
    getAllSessions (browser (run (initial b) (Mount uuid now :: evs))).
Proof.
  rewrite run_cons.
  apply (run_invariant (λ w, sessions (ui w) = getAllSessions (browser w))).
  - intros w e. apply step_sessions.
  - apply step_Mount_sessions.
Qed.

Lemma saveSession_unique_ids sid pv now b :
  unique_ids b → unique_ids (saveSession sid pv now b).
Proof.
  unfold unique_ids. intros Hb. rewrite saveSession_ids.
  case_bool_decide as Hc; [|done]. destruct Hc as [_ Hnew]. by apply NoDup_cons.
Qed.

Lemma setCurrentSession_unique_ids sid b :
  unique_ids b → unique_ids (setCurrentSession sid b).
Proof. unfold unique_ids. by rewrite getAllSessions_setCurrentSession. Qed.

Lemma createNewSession_unique_ids uuid now b :
  unique_ids b → unique_ids (createNewSession uuid now b).2.
Proof.
  intros Hb. rewrite createNewSession_browser. destruct (window b); [|done].
  by apply saveSession_unique_ids, setCurrentSession_unique_ids.
Qed.

Lemma step_unique_ids e w :
  unique_ids (browser w) → unique_ids (browser (step w e)).
Proof.
  intros Hinv. unfold step. rewrite sessionId_effect_browser.
  destruct e; simpl; try done.
  - rewrite mount_unfold. simpl. case_bool_decide.
    + by apply createNewSession_unique_ids.
    + by apply saveSession_unique_ids.
  - rewrite handleNewChat_unfold. simpl. by apply createNewSession_unique_ids.
  - unfold handleSwitchSession. case_bool_decide; [done|]. simpl.
    by apply setCurrentSession_unique_ids.
  - destruct (sendMessage_browser now w) as [-> | ->]; [done|].
    by apply saveSession_unique_ids.
  - case_bool_decide; [|done]. by destruct r.
  - case_bool_decide; [|done]. rewrite loadHistory_settled_unfold. simpl.
    destruct (firstUserMsg _); [|done]. destruct (no_history r); [done|].
    by apply saveSession_unique_ids.
Qed.

Lemma occurrences_unique sid (l : list Session) :
  NoDup (id <$> l) → (occurrences sid l ≤ 1)%nat.
Proof.
  unfold occurrences. induction l as [|s l IH]; [simpl; lia|].
  rewrite fmap_cons. intros [Hhd Hnd]%NoDup_cons.
  destruct (decide (id s = sid)) as [Heq|Hne].
  - rewrite filter_cons_True by done. simpl.
    pose proof (occurrences_absent sid l) as Ha. unfold occurrences in Ha.
    rewrite Ha; [lia|]. by rewrite <- Heq.
  - rewrite filter_cons_False by done. by apply IH.
Qed.

Lemma active_items_occurrences (u : ChatUI) :
  length (filter (λ it, item_active it = true) (sidebar_items (render u))) =
    occurrences (sessionId u) (sessions u).
Proof.
  unfold occurrences. simpl. induction (sessions u) as [|s l IH]; [done|].
  rewrite fmap_cons, !filter_cons. simpl.
  destruct (decide (id s = sessionId u)) as [Heq|Hne].
  - rewrite bool_decide_eq_true_2 by done.
    rewrite decide_True by done. simpl. by rewrite IH.
  - rewrite bool_decide_eq_false_2 by done.
    rewrite decide_False by done. done.
Qed.

(** X18. If the stored directory holds no id twice when the page loads,
    it never does afterwards, and the sidebar of the mounted component
    never highlights more than one session. *)
Theorem sidebar_highlights_at_most_one b uuid now evs :
  unique_ids b →
  unique_ids (browser (run (initial b) (Mount uuid now :: evs))) ∧
  (length (filter (λ it, item_active it = true)
             (sidebar_items (render (ui (run (initial b) (Mount uuid now :: evs))))))
     ≤ 1)%nat.
Proof.
  intros Hb.
  assert (Hu : unique_ids (browser (run (initial b) (Mount uuid now :: evs)))).
  { apply (run_invariant (λ w, unique_ids (browser w))); [|done].
    intros w e. apply step_unique_ids. }
  split; [done|].
  rewrite active_items_occurrences.
  assert (Hs : sessions (ui (run (initial b) (Mount uuid now :: evs))) =
               getAllSessions (browser (run (initial b) (Mount uuid now :: evs)))).
  { rewrite run_cons.
    apply (run_invariant (λ w, sessions (ui w) = getAllSessions (browser w))).
    - intros w e. apply step_sessions.
    - apply step_Mount_sessions. }
  rewrite Hs. by apply occurrences_unique.
Qed.

End StorageInvariants.

Section Handlers.

Implicit Types (w : World) (b : Browser) (now : Z).

Lemma saveSession_registered sid pv now b :
  window b = true → sid ∈ id <$> getAllSessions (saveSession sid pv now b).
Proof.
  intros Hw. rewrite saveSession_ids. case_bool_decide as Hc; [left|].
  destruct (decide (sid ∈ id <$> getAllSessions b)); [done|].
  destruct Hc. by split.
Qed.

Lemma quiet_step_error w e :
  quiet e = true → error (ui w) = "" → error (ui (step w e)) = "".
Proof.
  intros Hq He. destruct e; try done.
  - by unfold step; rewrite sessionId_effect_same.
  - by unfold step; rewrite sessionId_effect_same.
  - by unfold step; rewrite sessionId_effect_same.
  - rewrite step_Submit. unfold sendMessage. destruct (_ || _); [done|].
    by destruct (bool_decide _).
Qed.

Lemma quiet_run_error evs w :
  Forall (λ e, quiet e = true) evs → error (ui w) = "" → error (ui (run w evs)) = "".
Proof.
  revert w. induction evs as [|e evs IH]; intros w Hq He; [done|].
  apply Forall_cons in Hq as [Hq1 Hq]. rewrite run_cons.
  apply IH; [done|]. by apply quiet_step_error.
Qed.

(** X11. A send passes the guard; while it is in flight the user may
    type, toggle the sidebar or press send again; then the exchange
    succeeds. The message list is then the list before the send followed
    by the user message and the reply as an assistant message, the error
    banner is empty and the sending flag is cleared. *)
Theorem sendMessage_success_appends_reply w now evs reply :
  can_send w →
  Forall (λ e, quiet e = true) evs →
  let sid := sessionId (ui w) in
  let trimmed := trim (input (ui w)) in
  let w1 := run (step w (Submit now)) evs in
  let w2 := step w1 (ExchangeSettled sid trimmed (Ok reply)) in
  messages (ui w2) =
    messages (ui w) ++ [{| role := user; text := trimmed |};
                         {| role := model; text := reply |}] ∧
  error (ui w2) = "" ∧
  isTyping (ui w2) = false ∧
  sessionId (ui w2) = sid.
Proof.
  intros Hok Hq sid trimmed w1 w2.
  destruct (sendMessage_sends w now Hok) as (Hm & _ & Ht & He & Hf & _).
  rewrite <- step_Submit in Hm, Ht, He, Hf. fold trimmed sid in Hm, Hf.
  destruct (quiet_run_while_sending evs _ Hq Ht) as (Hm1 & _ & Hs1 & Hf1).
  pose proof (quiet_run_error evs _ Hq He) as He1.
  fold w1 in Hm1, Hf1, He1, Hs1.
  assert (Hin : POST sid trimmed ∈ inflight w1).
  { rewrite Hf1, Hf. apply elem_of_app. right. left. }
  unfold w2. rewrite step_ExchangeSettled by done. simpl.
  rewrite Hm1, Hm, <- app_assoc, He1, Hs1.
  by rewrite step_Submit, sendMessage_sessionId.
Qed.

(** X12. "New chat" in a browser, with a generated identifier that is not
    empty and differs from the active session: the new session becomes the
    active and the stored current one and is registered in the directory;
    the message list and the error banner are emptied at once; and, new
    as the session is, its history is still fetched. What the user has
    typed and a send in flight are left as they are. *)
Theorem handleNewChat_starts_empty_session w uuid now :
  window (browser w) = true →
  uuid ≠ "" →
  uuid ≠ sessionId (ui w) →
  let w' := step w (NewChat uuid now) in
  sessionId (ui w') = uuid ∧
  messages (ui w') = [] ∧
  error (ui w') = "" ∧
  isLoadingHistory (ui w') = true ∧
  inflight w' = inflight w ++ [GET uuid] ∧
  chat_session_id (browser w') = Some uuid ∧
  uuid ∈ id <$> getAllSessions (browser w') ∧
  sessions (ui w') = getAllSessions (browser w') ∧
  input (ui w') = input (ui w) ∧
  isTyping (ui w') = isTyping (ui w).
Proof.
  intros Hw Hne Hdiff w'.
  destruct (createNewSession_current uuid now _ Hw) as (Hid & Hw' & Hc).
  assert (Hreg : uuid ∈ id <$> getAllSessions (createNewSession uuid now (browser w)).2).
  { rewrite createNewSession_browser, Hw. apply saveSession_registered.
    by rewrite setCurrentSession_window. }
  unfold w', step. cbn [handle]. rewrite handleNewChat_unfold.
  destruct (createNewSession uuid now (browser w)) as [newId b'].
  simpl in Hid, Hw', Hc, Hreg. subst newId.
  unfold sessionId_effect. simpl.
  rewrite bool_decide_eq_false_2 by done.
  rewrite bool_decide_eq_false_2 by done. simpl.
  repeat split; done.
Qed.

(** X14. A history request settles with an [ok] response that carries
    messages. They become the message list verbatim, the loading flag is
    cleared and the error banner is not touched. If one of them is from
    the user, [saveSession] is called for the session of the request (not
    for the active one) with the first 50 characters of the first such
    message, so that in a browser a non-empty text becomes the preview of
    that session; if none is, the storage is not written. *)
Theorem loadHistory_adopts_history w sid ms now :
  GET sid ∈ inflight w →
  ms ≠ [] →
  let w' := step w (HistorySettled sid (HistoryResponse true (Some ms)) now) in
  messages (ui w') = ms ∧
  isLoadingHistory (ui w') = false ∧
  error (ui w') = error (ui w) ∧
  sessionId (ui w') = sessionId (ui w) ∧
  (firstUserMsg ms = None → browser w' = browser w) ∧
  (∀ fm, firstUserMsg ms = Some fm →
     browser w' = saveSession sid (slice0 50 (text fm)) now (browser w) ∧
     (window (browser w) = true → text fm ≠ "" →
      ∃ i e, find_session sid (getAllSessions (browser w')) = Some (i, e) ∧
             preview e = slice0 50 (text fm))).
Proof.
  intros Hin Hms w'. unfold w'. rewrite step_HistorySettled by done.
  rewrite loadHistory_settled_unfold.
  destruct ms as [|m ms]; [done|]. simpl history_view. simpl no_history.
  destruct (firstUserMsg (m :: ms)) as [fm|] eqn:Hfm; simpl.
  - repeat split; try done.
    + injection H as <-. done.
    + intros Hw Ht. injection H as <-.
      destruct (saveSession_sets_preview sid (slice0 50 (text fm)) now (browser w) Hw)
        as (i & e & Hfind & _ & Hpv); [by apply slice0_nonempty|].
      by exists i, e.
  - repeat split; try done.
Qed.

(** X15. Only a failed exchange raises the error banner. After any
    event the banner is empty, or what it was, or the event is the failure
    (transport error or status that is not [ok]) of a send in flight, and
    then the banner shows the message of that failure. A history load
    that fails never shows an error. *)
Theorem error_raised_only_by_failed_exchange w e :
  error (ui (step w e)) = "" ∨
  error (ui (step w e)) = error (ui w) ∨
  ∃ sid message r,
    e = ExchangeSettled sid message r ∧
    failed r = true ∧
    POST sid message ∈ inflight w ∧
    error (ui (step w e)) = failure_message r.
Proof.
  unfold step.
  assert (He : error (ui (sessionId_effect (sessionId (ui w)) (handle e w))) =
               error (ui (handle e w))).
  { by destruct (sessionId_effect_frame (sessionId (ui w)) (handle e w))
      as [-> | ->]. }
  rewrite He. clear He. destruct e; simpl.
  - right. left. by rewrite mount_unfold.
  - left. by rewrite handleNewChat_unfold.
  - unfold handleSwitchSession. case_bool_decide; [by right; left|by left].
  - by right; left.
  - by right; left.
  - by right; left.
  - left. unfold sendMessage. destruct (_ || _); [done|]. by destruct (bool_decide _).
  - case_bool_decide as Hin; [|by right; left].
    destruct r; [right; right|right; right|by right; left];
      eexists _, _, _; repeat split; done.
  - right. left. case_bool_decide; [|done]. by rewrite loadHistory_settled_unfold.
Qed.

(** X16. The send button agrees with the guard of [sendMessage]. While
    the button is disabled (a send in flight, or nothing but white space
    typed) a submit issues no request and only clears the error banner;
    when it is enabled and a session id is present, the submit passes the
    guard and issues exactly one [POST], with the session id and the
    trimmed input. *)
Theorem send_button_matches_guard w now :
  (send_disabled (render (ui w)) = true →
   step w (Submit now) = with_ui (setError "") w) ∧
  (send_disabled (render (ui w)) = false →
   sessionId (ui w) ≠ "" →
   can_send w ∧
   outbox (step w (Submit now)) =
     outbox w ++ [POST (sessionId (ui w)) (trim (input (ui w)))]).
Proof.
  rewrite step_Submit. simpl. split.
  - intros Hd. apply sendMessage_blocked. intros (Hm & Ht & _).
    rewrite Ht in Hd. simpl in Hd. by rewrite bool_decide_eq_false_2 in Hd.
  - intros Hd Hs. apply orb_false_iff in Hd as [Ht Hm].
    apply bool_decide_eq_false in Hm.
    assert (Hok : can_send w) by done.
    split; [done|]. by destruct (sendMessage_sends w now Hok) as (_ & _ & _ & _ & _ & ? & _).
Qed.

Lemma sessionId_effect_elem old w (q : Request) :
  q ∈ inflight w → q ∈ inflight (sessionId_effect old w).
Proof.
  intros Hq. destruct (sessionId_effect_cases old w) as [->|(_ & _ & ->)]; [done|].
  simpl. apply elem_of_app. by left.
Qed.

(** As long as no history settles, the loading flag stays up and a fetch
    in flight stays in flight. *)
Lemma loading_step_until_history w e sid :
  settles_history e = false →
  isLoadingHistory (ui w) = true →
  GET sid ∈ inflight w →
  isLoadingHistory (ui (step w e)) = true ∧ GET sid ∈ inflight (step w e).
Proof.
  intros He Hl Hin.
  assert (Hh : isLoadingHistory (ui (handle e w)) = true ∧
               GET sid ∈ inflight (handle e w)).
  { destruct e; simpl; try done.
    - by rewrite mount_unfold.
    - by rewrite handleNewChat_unfold.
    - unfold handleSwitchSession. by case_bool_decide.
    - unfold sendMessage. destruct (_ || _); [done|].
      destruct (bool_decide _); simpl; (split; [done|]);
        apply elem_of_app; by left.
    - case_bool_decide; [|done].
      split; [by destruct r|].
      assert (Hs : GET sid ∈ settle (POST sid0 message) (inflight w)).
      { by destruct (elem_of_settle_other (GET sid) (POST sid0 message) _ Hin). }
      by destruct r. }
  destruct Hh as [Hl' Hin']. unfold step.
  split; [|by apply sessionId_effect_elem].
  by destruct (sessionId_effect_frame (sessionId (ui w)) (handle e w)) as [-> | ->].
Qed.

Lemma loading_run_until_history evs w sid :
  Forall (λ e, settles_history e = false) evs →
  isLoadingHistory (ui w) = true →
  GET sid ∈ inflight w →
  isLoadingHistory (ui (run w evs)) = true ∧ GET sid ∈ inflight (run w evs).
Proof.
  revert w. induction evs as [|e evs IH]; intros w Hevs Hl Hin; [done|].
  apply Forall_cons in Hevs as [He Hevs]. rewrite run_cons.
  destruct (loading_step_until_history w e sid He Hl Hin) as [Hl' Hin'].
  by apply IH.
Qed.

(** X17. Choosing the active session again does nothing at all. Choosing
    another, non-empty session id makes it the active one, closes the
    sidebar, clears the error banner, leaves the directory and the typed
    input alone and issues the fetch of its history; the old messages stay
    in the state but the pane shows the loading placeholder. Whatever
    happens next, as long as no history load settles (this one or an
    older one), the placeholder stays and the fetch stays in flight; and
    when the fetch then settles the pane shows what it brought. *)
Theorem handleSwitchSession_reloads w sid :
  step w (SwitchSession (sessionId (ui w))) = w ∧
  (sid ≠ sessionId (ui w) →
   sid ≠ "" →
   let w1 := step w (SwitchSession sid) in
   sessionId (ui w1) = sid ∧
   error (ui w1) = "" ∧
   showSidebar (ui w1) = false ∧
   messages (ui w1) = messages (ui w) ∧
   input (ui w1) = input (ui w) ∧
   pane (render (ui w1)) = LoadingPlaceholder ∧
   inflight w1 = inflight w ++ [GET sid] ∧
   getAllSessions (browser w1) = getAllSessions (browser w) ∧
   (window (browser w) = true → chat_session_id (browser w1) = Some sid) ∧
   ∀ evs,
     Forall (λ e, settles_history e = false) evs →
     let w2 := run w1 evs in
     pane (render (ui w2)) = LoadingPlaceholder ∧
     GET sid ∈ inflight w2 ∧
     ∀ r now,
       pane (render (ui (step w2 (HistorySettled sid r now)))) =
         Bubbles ((λ m, (bool_decide (role m = user), text m)) <$> history_view r)).
Proof.
  split.
  - unfold step. simpl. unfold handleSwitchSession.
    rewrite bool_decide_eq_true_2 by done. by apply sessionId_effect_same.
  - intros Hdiff Hne w1.
    assert (Hw1 : w1 = loadHistory sid
                    (with_ui (setError "")
                       (with_ui (setShowSidebar false)
                          (with_ui (setSessionId sid)
                             (with_browser (setCurrentSession sid) w))))).
    { unfold w1, step. simpl. unfold handleSwitchSession.
      rewrite bool_decide_eq_false_2 by done.
      unfold sessionId_effect. simpl.
      rewrite bool_decide_eq_false_2 by done.
      by rewrite bool_decide_eq_false_2 by done. }
    assert (Hin : GET sid ∈ inflight w1).
    { rewrite Hw1. simpl. apply elem_of_app. right. left. }
    assert (Hl : isLoadingHistory (ui w1) = true) by by rewrite Hw1.
    split; [by rewrite Hw1|]. split; [by rewrite Hw1|].
    split; [by rewrite Hw1|]. split; [by rewrite Hw1|].
    split; [by rewrite Hw1|]. split; [by rewrite Hw1|].
    split; [by rewrite Hw1|].
    split; [rewrite Hw1; simpl; apply getAllSessions_setCurrentSession|].
    split; [intros Hw; rewrite Hw1; simpl;
            by apply setCurrentSession_chat_session_id|].
    intros evs Hevs w2.
    destruct (loading_run_until_history evs w1 sid Hevs Hl Hin) as [Hl2 Hin2].
    fold w2 in Hl2, Hin2.
    split; [simpl; by rewrite Hl2|]. split; [done|].
    intros r now. rewrite step_HistorySettled by done.
    rewrite loadHistory_settled_unfold. done.
Qed.

(** X19. Mounting in a browser. With a stored current session, the
    component resumes it: the generated identifier is not used, and when
    the session is already in the directory the storage is left exactly as
    it was. Without one, the generated identifier becomes the current
    session. Either way the session is then active, stored as current and
    registered, the pane shows the loading placeholder and the one request
    in flight is the fetch of its history. *)
Theorem mount_resumes_or_creates b uuid now :
  window b = true →
  uuid ≠ "" →
  let w := step (initial b) (Mount uuid now) in
  let current :=
    if bool_decide (getCurrentSession b = "") then uuid else getCurrentSession b in
  sessionId (ui w) = current ∧
  chat_session_id (browser w) = Some current ∧
  current ∈ id <$> getAllSessions (browser w) ∧
  inflight w = [GET current] ∧
  pane (render (ui w)) = LoadingPlaceholder ∧
  (getCurrentSession b ≠ "" →
   getCurrentSession b ∈ id <$> getAllSessions b →
   browser w = b).
Proof.
  intros Hw Hne w current.
  assert (Hcur : current ≠ "").
  { unfold current. by case_bool_decide. }
  assert (Hh : sessionId (ui (handle (Mount uuid now) (initial b))) = current ∧
               chat_session_id (browser (handle (Mount uuid now) (initial b))) =
                 Some current ∧
               current ∈ id <$> getAllSessions (browser (handle (Mount uuid now) (initial b))) ∧
               inflight (handle (Mount uuid now) (initial b)) = [] ∧
               (getCurrentSession b ≠ "" →
                getCurrentSession b ∈ id <$> getAllSessions b →
                browser (handle (Mount uuid now) (initial b)) = b)).
  { simpl. rewrite mount_unfold. simpl. unfold current. case_bool_decide as Hc.
    - destruct (createNewSession_current uuid now b Hw) as (-> & _ & ->).
      repeat split; try done.
      rewrite createNewSession_browser, Hw. apply saveSession_registered.
      by rewrite setCurrentSession_window.
    - rewrite saveSession_chat_session_id.
      split; [done|]. split; [by apply getCurrentSession_stored|].
      split; [by apply saveSession_registered|]. split; [done|].
      intros _ Hin.
      destruct (find_session (getCurrentSession b) (getAllSessions b))
        as [[i e]|] eqn:Hfind.
      + apply (saveSession_same _ _ _ _ i e); [done|by left].
      + by apply find_session_None in Hfind. }
  destruct Hh as (Hs & Hc & Hin & Hf & Hsame).
  assert (Hw' : w = loadHistory current (handle (Mount uuid now) (initial b))).
  { unfold w, step, sessionId_effect. rewrite Hs. simpl.
    by rewrite bool_decide_eq_false_2 by done. }
  rewrite Hw'. simpl in *. rewrite Hf. repeat split; try done.
Qed.

End Handlers.

(** * The further properties on concrete runs *)

Section MoreRuns.

Lemma unique_ids_two_sessions : unique_ids two_sessions.
Proof. unfold unique_ids. compute_done. Defined.

Lemma saveSession_keeps_ids_unique_witness :
  unique_ids two_sessions ∧
  unique_ids (saveSession "C" "third thread" 50 two_sessions) ∧
  unique_ids (createNewSession "A" 50 two_sessions).2.
Proof.
  split; [exact unique_ids_two_sessions|].
  exact (saveSession_keeps_ids_unique "C" "third thread" 50 "A" two_sessions
           unique_ids_two_sessions).
Defined.

Lemma saveSession_other_entries_untouched_witness :
  "B" ≠ "A" ∧
  snd <$> find_session "B" (getAllSessions (saveSession "A" "renamed" 50 two_sessions)) =
    snd <$> find_session "B" (getAllSessions two_sessions).
Proof.
  assert (Hne : "B" ≠ "A") by discriminate.
  split; [exact Hne|].
  exact (saveSession_other_entries_untouched "A" "B" "renamed" 50 two_sessions Hne).
Defined.

Lemma saveSession_replaces_unreadable_directory_witness :
  window unreadable_directory = true ∧
  (chat_sessions unreadable_directory = NoItem ∨
   chat_sessions unreadable_directory = NotJSON) ∧
  chat_sessions (saveSession "A" "" 50 unreadable_directory) =
    SessionsArray
      [ {| id := "A"; preview := or_else "" "New conversation"; timestamp := 50 |} ].
Proof.
  split; [reflexivity|]. split; [right; reflexivity|].
  destruct (saveSession_replaces_unreadable_directory "A" "" 50 unreadable_directory
              eq_refl (or_intror eq_refl)) as (_ & H & _).
  exact H.
Defined.

Lemma current_session_round_trip_witness :
  window two_sessions = true ∧
  getCurrentSession (setCurrentSession "B" two_sessions) = "B" ∧
  getCurrentSession (createNewSession "C" 50 two_sessions).2 =
    (createNewSession "C" 50 two_sessions).1.
Proof.
  split; [reflexivity|].
  destruct (current_session_round_trip "B" "C" 50 two_sessions eq_refl)
    as (H1 & _ & H2).
  split; [exact H1|exact H2].
Defined.

Lemma active_session_is_persisted_witness :
  window two_sessions = true ∧
  (sessionId (ui (run (initial two_sessions) [Mount "unused" 30; SwitchSession "B"])) = "" ∨
   chat_session_id
     (browser (run (initial two_sessions) [Mount "unused" 30; SwitchSession "B"])) =
     Some (sessionId
             (ui (run (initial two_sessions) [Mount "unused" 30; SwitchSession "B"])))).
Proof.
  split; [reflexivity|].
  exact (active_session_is_persisted two_sessions
           [Mount "unused" 30; SwitchSession "B"] eq_refl).
Defined.

Lemma sendMessage_success_appends_reply_witness :
  can_send typed_hello ∧
  Forall (λ e, quiet e = true) [ChangeInput "next"; ToggleSidebar; Submit 41] ∧
  messages (ui (step (run (step typed_hello (Submit 40))
                        [ChangeInput "next"; ToggleSidebar; Submit 41])
                  (ExchangeSettled "A" "hello" (Ok "hi there")))) =
    messages (ui typed_hello)
      ++ [{| role := user; text := "hello" |}; {| role := model; text := "hi there" |}].
Proof.
  assert (Hq : Forall (λ e, quiet e = true)
                 [ChangeInput "next"; ToggleSidebar; Submit 41])
    by (repeat constructor).
  split; [exact can_send_typed_hello|]. split; [exact Hq|].
  destruct (sendMessage_success_appends_reply typed_hello 40
              [ChangeInput "next"; ToggleSidebar; Submit 41] "hi there"
              can_send_typed_hello Hq) as (H & _).
  exact H.
Defined.

Lemma handleNewChat_starts_empty_session_witness :
  window (browser ready_on_A) = true ∧
  "C" ≠ "" ∧
  "C" ≠ sessionId (ui ready_on_A) ∧
  messages (ui (step ready_on_A (NewChat "C" 40))) = [] ∧
  inflight (step ready_on_A (NewChat "C" 40)) = inflight ready_on_A ++ [GET "C"].
Proof.
  assert (Hne : "C" ≠ "") by discriminate.
  assert (Hdiff : "C" ≠ sessionId (ui ready_on_A)) by (vm_compute; discriminate).
  split; [reflexivity|]. split; [exact Hne|]. split; [exact Hdiff|].
  destruct (handleNewChat_starts_empty_session ready_on_A "C" 40 eq_refl Hne Hdiff)
    as (_ & H1 & _ & _ & H2 & _).
  split; [exact H1|exact H2].
Defined.

Lemma send_blocked_until_settled_witness :
  isTyping (ui sending_hello) = true ∧
  Forall (λ e, settles_exchange e = false) impatient_events ∧
  isTyping (ui (run sending_hello impatient_events)) = true ∧
  filter (λ q, is_POST q = true) (outbox (run sending_hello impatient_events)) =
    filter (λ q, is_POST q = true) (outbox sending_hello).
Proof.
  assert (Hevs : Forall (λ e, settles_exchange e = false) impatient_events)
    by (repeat constructor).
  split; [reflexivity|]. split; [exact Hevs|].
  exact (send_blocked_until_settled sending_hello impatient_events eq_refl Hevs).
Defined.

Lemma loadHistory_adopts_history_witness :
  GET "A" ∈ inflight just_mounted ∧
  history_A ≠ [] ∧
  messages (ui (step just_mounted
                  (HistorySettled "A" (HistoryResponse true (Some history_A)) 31))) =
    history_A.
Proof.
  assert (Hin : GET "A" ∈ inflight just_mounted) by compute_done.
  assert (Hne : history_A ≠ []) by discriminate.
  split; [exact Hin|]. split; [exact Hne|].
  destruct (loadHistory_adopts_history just_mounted "A" history_A 31 Hin Hne)
    as (H & _).
  exact H.
Defined.

Lemma sidebar_highlights_at_most_one_witness :
  unique_ids two_sessions ∧
  (length (filter (λ it, item_active it = true)
             (sidebar_items
                (render (ui (run (initial two_sessions)
                               (Mount "unused" 30 :: [SwitchSession "B"]))))))
     ≤ 1)%nat.
Proof.
  split; [exact unique_ids_two_sessions|].
  destruct (sidebar_highlights_at_most_one two_sessions "unused" 30
              [SwitchSession "B"] unique_ids_two_sessions) as (_ & H).
  exact H.
Defined.

Lemma mount_resumes_or_creates_witness :
  window two_sessions = true ∧
  "unused" ≠ "" ∧
  sessionId (ui (step (initial two_sessions) (Mount "unused" 30))) = "A" ∧
  inflight (step (initial two_sessions) (Mount "unused" 30)) = [GET "A"].
Proof.
  assert (Hne : "unused" ≠ "") by discriminate.
  split; [reflexivity|]. split; [exact Hne|].
  destruct (mount_resumes_or_creates two_sessions "unused" 30 eq_refl Hne)
    as (H1 & _ & _ & H2 & _).
  split; [exact H1|exact H2].
Defined.

End MoreRuns.

(** * Failure of a send, and identifiers of new sessions *)

Section FailureAndIdentifiers.

Implicit Types (w : World) (b : Browser) (now : Z) (r : ExchangeResult).

(** While a send is in flight, an event that keeps the list leaves the
    message list and the sending flag alone, and the request in flight. *)
Lemma keeps_list_step_while_sending w e (q : Request) :
  keeps_list e = true →
  isTyping (ui w) = true →
  q ∈ inflight w →
  messages (ui (step w e)) = messages (ui w) ∧
  isTyping (ui (step w e)) = true ∧
  q ∈ inflight (step w e).
Proof.
  intros He Ht Hq. destruct e; try done.
  - unfold step.
    assert (Hh : messages (ui (handle (Mount uuid now) w)) = messages (ui w) ∧
                 isTyping (ui (handle (Mount uuid now) w)) = true ∧
                 q ∈ inflight (handle (Mount uuid now) w)).
    { simpl. by rewrite mount_unfold. }
    destruct Hh as (Hm & Ht' & Hq').
    split; [|split; [|by apply sessionId_effect_elem]];
      by destruct (sessionId_effect_frame (sessionId (ui w)) (handle (Mount uuid now) w))
        as [-> | ->].
  - destruct (step_SwitchSession_frame w sid) as (Hm & Ht' & Hf).
    split; [done|]. split; [congruence|]. by apply Hf.
  - destruct (quiet_step_while_sending w (ChangeInput v) eq_refl Ht) as (? & ? & _ & Hf).
    by rewrite Hf.
  - destruct (quiet_step_while_sending w ToggleSidebar eq_refl Ht) as (? & ? & _ & Hf).
    by rewrite Hf.
  - destruct (quiet_step_while_sending w CloseSidebar eq_refl Ht) as (? & ? & _ & Hf).
    by rewrite Hf.
  - destruct (quiet_step_while_sending w (Submit now) eq_refl Ht) as (? & ? & _ & Hf).
    by rewrite Hf.
Qed.

Lemma keeps_list_run_while_sending evs w (q : Request) :
  Forall (λ e, keeps_list e = true) evs →
  isTyping (ui w) = true →
  q ∈ inflight w →
  messages (ui (run w evs)) = messages (ui w) ∧
  isTyping (ui (run w evs)) = true ∧
  q ∈ inflight (run w evs).
Proof.
  revert w. induction evs as [|e evs IH]; intros w Hevs Ht Hq; [done|].
  apply Forall_cons in Hevs as [He Hevs]. rewrite run_cons.
  destruct (keeps_list_step_while_sending w e q He Ht Hq) as (Hm & Ht' & Hq').
  destruct (IH (step w e) Hevs Ht' Hq') as (Hm' & Ht'' & Hq'').
  split; [congruence|done].
Qed.

(** C3 (amended). A send passes the guard and its exchange fails, by a
    transport error or a status that is not [ok]. If in between the list
    is not replaced, that is no history load settles and no new chat is
    started (typing, the sidebar, further submits, a session switch and
    the mount effect are all allowed), the message list is then the list
    before the send followed by exactly two entries, the user message and
    the fallback assistant message, the error banner is not empty and the
    sending flag is cleared. In every case the failure of a send in flight
    appends the fallback message to the list held at that time, sets a
    non-empty error and clears the flag. *)
Theorem sendMessage_failure_compensated w now evs r :
  can_send w →
  Forall (λ e, keeps_list e = true) evs →
  failed r = true →
  let sid := sessionId (ui w) in
  let trimmed := trim (input (ui w)) in
  let w1 := run (step w (Submit now)) evs in
  let w2 := step w1 (ExchangeSettled sid trimmed r) in
  messages (ui w2) =
    messages (ui w) ++ [{| role := user; text := trimmed |}; fallback] ∧
  role fallback = model ∧
  error (ui w2) = failure_message r ∧
  error (ui w2) ≠ "" ∧
  isTyping (ui w2) = false ∧
  ∀ w' sid' message',
    POST sid' message' ∈ inflight w' →
    messages (ui (step w' (ExchangeSettled sid' message' r))) =
      messages (ui w') ++ [fallback] ∧
    error (ui (step w' (ExchangeSettled sid' message' r))) ≠ "" ∧
    isTyping (ui (step w' (ExchangeSettled sid' message' r))) = false.
Proof.
  intros Hok Hevs Hr sid trimmed w1 w2.
  pose proof (failure_message_nonempty r Hr) as Hne.
  assert (Hany : ∀ w' sid' message',
             POST sid' message' ∈ inflight w' →
             messages (ui (step w' (ExchangeSettled sid' message' r))) =
               messages (ui w') ++ [fallback] ∧
             error (ui (step w' (ExchangeSettled sid' message' r))) = failure_message r ∧
             isTyping (ui (step w' (ExchangeSettled sid' message' r))) = false).
  { intros w' sid' message' Hin. rewrite step_ExchangeSettled by done.
    by destruct r. }
  destruct (sendMessage_sends w now Hok) as (Hm & _ & Ht & _ & Hf & _).
  rewrite <- step_Submit in Hm, Ht, Hf. fold trimmed sid in Hm, Hf.
  assert (Hin : POST sid trimmed ∈ inflight (step w (Submit now))).
  { rewrite Hf. apply elem_of_app. right. left. }
  destruct (keeps_list_run_while_sending evs _ _ Hevs Ht Hin) as (Hm1 & _ & Hin1).
  fold w1 in Hm1, Hin1.
  destruct (Hany w1 sid trimmed Hin1) as (Hm2 & He2 & Ht2). fold w2 in Hm2, He2, Ht2.
  split; [by rewrite Hm2, Hm1, Hm, <- app_assoc|]. split; [done|].
  split; [done|]. split; [by rewrite He2|]. split; [done|].
  intros w' sid' message' Hin'.
  destruct (Hany w' sid' message' Hin') as (? & He' & ?).
  split; [done|]. split; [by rewrite He'|done].
Qed.








(** C3, as first stated, fails. The user sends "hello" before the history
    of the session has arrived; the history arrives and replaces the list;
    the exchange fails. The list is the history followed by the fallback
    message: the user message is gone, and the list is not the list before
    the send plus two entries. *)
Lemma failed_send_loses_user_message :
  can_send typed_before_history ∧
  messages (ui typed_before_history) = [] ∧
  send_disabled (render (ui typed_before_history)) = false ∧
  messages (ui (run typed_before_history history_then_failure)) =
    history_A ++ [fallback] ∧
  messages (ui (run typed_before_history history_then_failure)) ≠
    messages (ui typed_before_history)
      ++ [{| role := user; text := "hello" |}; fallback].
Proof.
  split; [repeat split; vm_compute; discriminate|].
  split; [reflexivity|]. split; [reflexivity|]. split; [reflexivity|].
  vm_compute. discriminate.
Qed.


Lemma sendMessage_failure_compensated_witness :
  can_send typed_hello ∧
  Forall (λ e, keeps_list e = true)
    [ChangeInput "next"; SwitchSession "B"; Submit 41] ∧
  failed (HttpError (Some "message is too long (max 8000 chars).")) = true ∧
  messages (ui (step (run (step typed_hello (Submit 40))
                        [ChangeInput "next"; SwitchSession "B"; Submit 41])
                  (ExchangeSettled "A" "hello"
                     (HttpError (Some "message is too long (max 8000 chars)."))))) =
    messages (ui typed_hello) ++ [{| role := user; text := "hello" |}; fallback].
Proof.
  assert (Hevs : Forall (λ e, keeps_list e = true)
                   [ChangeInput "next"; SwitchSession "B"; Submit 41])
    by (repeat constructor).
  split; [exact can_send_typed_hello|]. split; [exact Hevs|].
  split; [reflexivity|].
  destruct (sendMessage_failure_compensated typed_hello 40
              [ChangeInput "next"; SwitchSession "B"; Submit 41]
              (HttpError (Some "message is too long (max 8000 chars)."))
              can_send_typed_hello Hevs eq_refl) as (H & _).
  exact H.
Defined.


End FailureAndIdentifiers.
